(** * MCEq.density_profiles: CORSIKA-style layered atmosphere and the
      zenith-angle spline cache

    Shallow embedding of [src/MCEq/density_profiles.py].

    - Python floats are idealised as real numbers ([R]); numpy rows are lists
      indexed from 0; [np.exp] and [np.log] are [exp] and [ln] (with
      [ln x = 0] for [x <= 0], where numpy would produce nan or -inf).
    - [CascadeAtmosphere.set_theta] is a state-passing program over the
      attributes of the object, the configuration flag, the cache file and
      the local dictionary [cache], with exceptions as results and a trace of
      the loads, spline builds and saves it performs.
    - [geom._theta_rad] and the numerical work of [calculate_density_spline]
      are parameters; [MCEq.misc._get_closest] is modelled from the
      specification. *)

From Stdlib Require Import Reals Lra Lia List String Bool Arith Factorial.
Import ListNotations.

#[local] Open Scope R_scope.

(** ** Parameter tables *)

(** [self._atm_param = np.array([_aatm, _batm, _catm, _thickl, _hlay])]. *)
Record atm_param : Type := mk_atm_param {
  _aatm : list R;
  _batm : list R;
  _catm : list R;
  _thickl : list R;
  _hlay : list R
}.

(** [row[i]]; every supported row has five entries, so the default is never
    reached on them (lemma [supported_well_formed]). *)
Definition idx (row : list R) (i : nat) : R := nth i row 0.

Definition param_USStd : atm_param := {|
  _aatm := [-186.5562; -94.919; 0.61289; 0.0; 0.01128292];
  _batm := [1222.6562; 1144.9069; 1305.5948; 540.1778; 1.0];
  _catm := [994186.38; 878153.55; 636143.04; 772170; 1.0e9];
  _thickl := [1036.102549; 631.100309; 271.700230; 3.039494; 0.001280];
  _hlay := [0; 4.0e5; 1.0e6; 4.0e6; 1.0e7] |}.

Definition param_BK_USStd : atm_param := {|
  _aatm := [-149.801663; -57.932486; 0.63631894; 4.3545369e-4; 0.01128292];
  _batm := [1183.6071; 1143.0425; 1322.9748; 655.69307; 1.0];
  _catm := [954248.34; 800005.34; 629568.93; 737521.77; 1.0e9];
  _thickl := [1033.804941; 418.557770; 216.981635; 4.344861; 0.001280];
  _hlay := [0.0; 7.0e5; 1.14e6; 3.7e6; 1.0e7] |}.

Definition param_Karlsruhe : atm_param := {|
  _aatm := [-118.1277; -154.258; 0.4191499; 5.4094056e-4; 0.01128292];
  _batm := [1173.9861; 1205.7625; 1386.7807; 555.8935; 1.0];
  _catm := [919546; 963267.92; 614315; 739059.6; 1.0e9];
  _thickl := [1055.858707; 641.755364; 272.720974; 2.480633; 0.001280];
  _hlay := [0.0; 4.0e5; 1.0e6; 4.0e6; 1.0e7] |}.

Definition param_SouthPole_December : atm_param := {|
  _aatm := [-128.601; -39.5548; 1.13088; -0.00264960; 0.00192534];
  _batm := [1139.99; 1073.82; 1052.96; 492.503; 1.0];
  _catm := [861913; 744955; 675928; 829627; 5.8587010e9];
  _thickl := [1011.398804; 588.128367; 240.955360; 3.964546; 0.000218];
  _hlay := [0.0; 4.0e5; 1.0e6; 4.0e6; 1.0e7] |}.

Definition param_SouthPole_June : atm_param := {|
  _aatm := [-163.331; -65.3713; 0.402903; -0.000479198; 0.00188667];
  _batm := [1183.70; 1108.06; 1424.02; 207.595; 1.0];
  _catm := [875221; 753213; 545846; 793043; 5.9787908e9];
  _thickl := [1020.370363; 586.143464; 228.374393; 1.338258; 0.000214];
  _hlay := [0.0; 4.0e5; 1.0e6; 4.0e6; 1.0e7] |}.

Definition param_PL_SouthPole_January : atm_param := {|
  _aatm := [-113.139; -7930635; -54.3888; -0.0; 0.00421033];
  _batm := [1133.10; 1101.20; 1085.00; 1098.00; 1.0];
  _catm := [861730; 826340; 790950; 682800; 2.6798156e9];
  _thickl := [1019.966898; 718.071682; 498.659703; 340.222344; 0.000478];
  _hlay := [0.0; 2.67e5; 5.33e5; 8.0e5; 1.0e7] |}.

Definition param_PL_SouthPole_August : atm_param := {|
  _aatm := [-59.0293; -21.5794; -7.14839; 0.0; 0.000190175];
  _batm := [1079.0; 1071.90; 1182.0; 1647.1; 1.0];
  _catm := [764170; 699910; 635650; 551010; 59.329575e9];
  _thickl := [1019.946057; 391.739652; 138.023515; 43.687992; 0.000022];
  _hlay := [0.0; 6.67e5; 13.33e5; 2.0e6; 1.0e7] |}.

(** [CorsikaAtmosphere.init_parameters], as the table it selects: [None]
    stands for the raised exception (location or season not parameterized).
    The season is ignored for the first three locations. *)
Definition init_parameters (location : string) (season : option string)
  : option atm_param :=
  if (location =? "USStd")%string then Some param_USStd
  else if (location =? "BK_USStd")%string then Some param_BK_USStd
  else if (location =? "Karlsruhe")%string then Some param_Karlsruhe
  else if (location =? "SouthPole")%string then
    match season with
    | Some s =>
        if (s =? "December")%string then Some param_SouthPole_December
        else if (s =? "June")%string then Some param_SouthPole_June
        else None
    | None => None
    end
  else if (location =? "PL_SouthPole")%string then
    match season with
    | Some s =>
        if (s =? "January")%string then Some param_PL_SouthPole_January
        else if (s =? "August")%string then Some param_PL_SouthPole_August
        else None
    | None => None
    end
  else None.

Definition supported_sets : list atm_param :=
  [param_USStd; param_BK_USStd; param_Karlsruhe; param_SouthPole_December;
   param_SouthPole_June; param_PL_SouthPole_January; param_PL_SouthPole_August].

(** ** The layered model *)

(** [CorsikaAtmosphere.depth2height]. *)
Definition depth2height (p : atm_param) (x_v : R) : R :=
  let a := _aatm p in let b := _batm p in let c := _catm p in
  let t := _thickl p in
  if Rge_dec x_v (idx t 1) then idx c 0 * ln (idx b 0 / (x_v - idx a 0))
  else if Rge_dec x_v (idx t 2) then idx c 1 * ln (idx b 1 / (x_v - idx a 1))
  else if Rge_dec x_v (idx t 3) then idx c 2 * ln (idx b 2 / (x_v - idx a 2))
  else if Rge_dec x_v (idx t 4) then idx c 3 * ln (idx b 3 / (x_v - idx a 3))
  else (idx a 4 - x_v) * idx c 4.

(** [CorsikaAtmosphere.height2depth]. *)
Definition height2depth (p : atm_param) (h_cm : R) : R :=
  let a := _aatm p in let b := _batm p in let c := _catm p in
  let hl := _hlay p in
  let height := h_cm in
  if Rle_dec height (idx hl 1) then idx a 0 + idx b 0 * exp (- height / idx c 0)
  else if Rle_dec height (idx hl 2) then idx a 1 + idx b 1 * exp (- height / idx c 1)
  else if Rle_dec height (idx hl 3) then idx a 2 + idx b 2 * exp (- height / idx c 2)
  else if Rle_dec height (idx hl 4) then idx a 3 + idx b 3 * exp (- height / idx c 3)
  else idx a 4 - height / idx c 4.

(** [for i in xrange(row.size): if not (v REL row[i]): layer = i], starting
    from [layer = 0]; [holds v r] decides the comparison [v REL r]. *)
Definition select_layer (holds : R -> R -> bool) (v : R) (row : list R) : nat :=
  fold_left (fun layer i => if holds v (idx row i) then layer else i)
            (seq 0 (List.length row)) 0%nat.

Definition Rge_bool (x y : R) : bool := if Rge_dec x y then true else false.
Definition Rle_bool (x y : R) : bool := if Rle_dec x y then true else false.

(** [planar_rho_inv_jit]. *)
Definition planar_rho_inv_jit (X cos_theta : R) (param : atm_param) : R :=
  let a := _aatm param in let b := _batm param in let c := _catm param in
  let t := _thickl param in
  let x_v := X * cos_theta in
  let layer := select_layer Rge_bool x_v t in
  if (layer =? 4)%nat then idx c 4 / idx b 4
  else idx c layer / (x_v - idx a layer).

(** [corsika_get_density_jit]. *)
Definition corsika_get_density_jit (h_cm : R) (param : atm_param) : R :=
  let b := _batm param in let c := _catm param in
  let hl := _hlay param in
  let layer := select_layer Rle_bool h_cm hl in
  if (layer =? 4)%nat then idx b 4 / idx c 4
  else idx b layer / idx c layer * exp (- h_cm / idx c layer).

(** [CorsikaAtmosphere.get_density] and [CorsikaAtmosphere.rho_inv]. *)
Definition get_density (p : atm_param) (h_cm : R) : R :=
  corsika_get_density_jit h_cm p.

Definition rho_inv (p : atm_param) (X cos_theta : R) : R :=
  planar_rho_inv_jit X cos_theta p.

(** [CascadeAtmosphere.moliere_air] and [CascadeAtmosphere.nref_rel_air]. *)
Definition moliere_air (p : atm_param) (h_cm : R) : R :=
  9.3 / (get_density p h_cm * 100).

Definition nref_rel_air (p : atm_param) (h_cm : R) : R :=
  0.000283 * get_density p h_cm / get_density p 0.

(** Which branch of the [if]/[elif] chains of [height2depth] and
    [depth2height] is taken. *)
Definition height_layer (p : atm_param) (h_cm : R) : nat :=
  let hl := _hlay p in
  if Rle_dec h_cm (idx hl 1) then 0
  else if Rle_dec h_cm (idx hl 2) then 1
  else if Rle_dec h_cm (idx hl 3) then 2
  else if Rle_dec h_cm (idx hl 4) then 3
  else 4.

Definition depth_layer (p : atm_param) (x_v : R) : nat :=
  let t := _thickl p in
  if Rge_dec x_v (idx t 1) then 0
  else if Rge_dec x_v (idx t 2) then 1
  else if Rge_dec x_v (idx t 3) then 2
  else if Rge_dec x_v (idx t 4) then 3
  else 4.

(** The closed forms of one layer. *)
Definition layer_depth (p : atm_param) (l : nat) (h_cm : R) : R :=
  if (l =? 4)%nat then idx (_aatm p) 4 - h_cm / idx (_catm p) 4
  else idx (_aatm p) l + idx (_batm p) l * exp (- h_cm / idx (_catm p) l).

Definition layer_height (p : atm_param) (l : nat) (x_v : R) : R :=
  if (l =? 4)%nat then (idx (_aatm p) 4 - x_v) * idx (_catm p) 4
  else idx (_catm p) l * ln (idx (_batm p) l / (x_v - idx (_aatm p) l)).

(** ** The selection rules in the words of the specification *)

(** "the highest-indexed layer whose height boundary is exceeded by height
    (layer selected if height is NOT <= boundary)", layer 0 when no boundary
    is exceeded. *)
Definition highest_exceeded (hl : list R) (h : R) (l : nat) : Prop :=
  ((l < List.length hl)%nat /\ ~ h <= idx hl l /\
   forall j, (l < j < List.length hl)%nat -> h <= idx hl j)
  \/ (l = 0%nat /\ forall j, (j < List.length hl)%nat -> h <= idx hl j).

(** "the depth-boundary rule": the largest index [l] with
    [x_v < thickl[l]], layer 0 when [x_v >= thickl[0]]. *)
Definition depth_boundary_rule (t : list R) (x_v : R) (l : nat) : Prop :=
  ((l < List.length t)%nat /\ x_v < idx t l /\
   forall j, (l < j < List.length t)%nat -> ~ x_v < idx t j)
  \/ (l = 0%nat /\ x_v >= idx t 0).

(** What the proofs use of a supported table: five entries per row, positive
    [b] and [c], depth boundaries strictly decreasing, each layer's [a]
    below the lower end of its depth band, and no negative height boundary. *)
Definition well_formed (p : atm_param) : Prop :=
  (List.length (_aatm p) = 5%nat /\ List.length (_batm p) = 5%nat /\
   List.length (_catm p) = 5%nat /\ List.length (_thickl p) = 5%nat /\
   List.length (_hlay p) = 5%nat) /\
  Forall (fun x => 0 < x) (_batm p) /\
  Forall (fun x => 0 < x) (_catm p) /\
  (idx (_thickl p) 1 < idx (_thickl p) 0 /\ idx (_thickl p) 2 < idx (_thickl p) 1 /\
   idx (_thickl p) 3 < idx (_thickl p) 2 /\ idx (_thickl p) 4 < idx (_thickl p) 3) /\
  (idx (_aatm p) 0 < idx (_thickl p) 1 /\ idx (_aatm p) 1 < idx (_thickl p) 2 /\
   idx (_aatm p) 2 < idx (_thickl p) 3 /\ idx (_aatm p) 3 < idx (_thickl p) 4) /\
  Forall (fun x => 0 <= x) (_hlay p).

(** ** Partial sums of the exponential series

    Used to enclose [exp] between rationals at the layer boundaries:
    [exp_term y k = y^k / k!], and [exp_alt_sum y n] is the [n]-th partial sum
    of the alternating series of [exp (- y)]. *)
Fixpoint exp_term (y : R) (k : nat) : R :=
  match k with
  | O => 1
  | S k' => exp_term y k' * y / INR (S k')
  end.

Fixpoint exp_alt_sum (y : R) (n : nat) : R :=
  match n with
  | O => 1
  | S n' => exp_alt_sum y n' + (-1) ^ n * exp_term y n
  end.

(** ** [CascadeAtmosphere.set_theta] and the persistent spline cache *)

(** Python dictionaries as association lists: [d[k]], [d[k] = v] (replace in
    place or append) and [d.keys()]. *)
Fixpoint dict_get {K V : Type} (eqb : K -> K -> bool) (k : K) (d : list (K * V))
  : option V :=
  match d with
  | [] => None
  | (k', v) :: r => if eqb k' k then Some v else dict_get eqb k r
  end.

Fixpoint dict_set {K V : Type} (eqb : K -> K -> bool) (k : K) (v : V)
  (d : list (K * V)) : list (K * V) :=
  match d with
  | [] => [(k, v)]
  | (k', v') :: r =>
      if eqb k' k then (k, v) :: r else (k', v') :: dict_set eqb k v r
  end.

Definition dict_keys {K V : Type} (d : list (K * V)) : list K := map fst d.

Definition Req_bool (x y : R) : bool := if Req_dec_T x y then true else false.

(** [(self.__class__.__name__, self.location, self.season)]. *)
Definition cache_key : Type := (string * string * option string)%type.

Definition option_string_eqb (a b : option string) : bool :=
  match a, b with
  | Some x, Some y => (x =? y)%string
  | None, None => true
  | _, _ => false
  end.

Definition key_eqb (a b : cache_key) : bool :=
  let '(c1, l1, s1) := a in
  let '(c2, l2, s2) := b in
  (c1 =? c2)%string && (l1 =? l2)%string && option_string_eqb s1 s2.

(** Modelled from the spec: [MCEq.misc._get_closest] is not part of the
    sources at hand; the specification has the lookup "snap to the nearest
    stored angle".  The scan keeps the index and the value of the element
    nearest to [value] so far (the first one among equally near elements). *)
Fixpoint _get_closest_from (value : R) (best_i : nat) (best : R) (i : nat)
  (rest : list R) : nat * R :=
  match rest with
  | [] => (best_i, best)
  | x :: r =>
      if Rlt_dec (Rabs (x - value)) (Rabs (best - value))
      then _get_closest_from value i x (S i) r
      else _get_closest_from value best_i best (S i) r
  end.

(** Modelled from the spec: [_get_closest(value, in_list)], the nearest
    stored angle with its index; [None] stands for the exception on an empty
    list. *)
Definition _get_closest (value : R) (in_list : list R) : option (nat * R) :=
  match in_list with
  | [] => None
  | x :: r => Some (_get_closest_from value 0 x 1 r)
  end.

(** Exceptions are told apart only as far as the handlers do:
    [except IOError] against everything else. *)
Inductive exn : Type := IOError | OtherError.

Inductive result (A : Type) : Type :=
| Ok (a : A)
| Raise (e : exn).
Arguments Ok {A} a.
Arguments Raise {A} e.

(** What a call does that its caller cannot see in the final state. *)
Inductive event : Type :=
| LoadCache
| BuildSpline (theta_deg : R)
| DumpCache (written : bool).

Section SetTheta.
(** The fitted spline object, [geom._theta_rad] and the outcome
    [(X_surf, s_X2rho)] of [calculate_density_spline] (numerical quadrature
    and a spline fit, which read [self.thrad] and [self.get_density]) are
    kept abstract. *)
Variable Spline : Type.
Variable _theta_rad : R -> R.

(** A value stored under [cache[key][angle]]: the pair
    [(X_surf, s_X2rho)], or anything that does not unpack into two. *)
Inductive stored : Type :=
| Profile (X_surf : R) (s_X2rho : Spline)
| Malformed.

Definition cache_entry : Type := list (R * stored).
Definition cache_dict : Type := list (cache_key * cache_entry).

(** The attributes of a [CascadeAtmosphere] object. *)
Record atmosphere : Type := mk_atmosphere {
  class_name : string;
  location : string;
  season : option string;
  thrad : option R;
  theta_deg : option R;
  X_surf : option R;
  s_X2rho : option Spline
}.

Variable density_spline : atmosphere -> R * Spline.

(** The cache file: cannot be opened or read ([IOError]), opens but does
    not unpickle, or holds a pickled dictionary. *)
Inductive cache_file : Type :=
| Unreadable
| Corrupt
| Pickled (c : cache_dict).

(** [config['use_atm_cache']], the cache file, and whether the coming
    attempts to open the file for writing fail ([true]: [IOError], the file
    stays as it is; once the list is used up every write succeeds). *)
Record world : Type := mk_world {
  use_atm_cache : bool;
  file : cache_file;
  write_faults : list bool
}.

(** [cache] is the local dictionary object of [set_theta], shared with
    [calculate_and_store] and mutated in place. *)
Record state : Type := mk_state {
  self : atmosphere;
  env : world;
  cache : cache_dict;
  trace : list event
}.

Definition M (A : Type) : Type := state -> result A * state.

Definition ret {A : Type} (a : A) : M A := fun s => (Ok a, s).

Definition raise {A : Type} (e : exn) : M A := fun s => (Raise e, s).

Definition bind {A B : Type} (m : M A) (k : A -> M B) : M B :=
  fun s => match m s with
           | (Ok a, s') => k a s'
           | (Raise e, s') => (Raise e, s')
           end.

(** [try: body / except: handler] with a bare [except]. *)
Definition try_except {A : Type} (body handler : M A) : M A :=
  fun s => match body s with
           | (Ok a, s') => (Ok a, s')
           | (Raise _, s') => handler s'
           end.

Definition modify (f : state -> state) : M unit := fun s => (Ok tt, f s).

Definition get_state : M state := fun s => (Ok s, s).

Definition log (e : event) : M unit :=
  modify (fun s => mk_state (self s) (env s) (cache s) (trace s ++ [e])).

Definition set_self (f : atmosphere -> atmosphere) : M unit :=
  modify (fun s => mk_state (f (self s)) (env s) (cache s) (trace s)).

Definition set_cache (f : cache_dict -> cache_dict) : M unit :=
  modify (fun s => mk_state (self s) (env s) (f (cache s)) (trace s)).

Definition set_env (f : world -> world) : M unit :=
  modify (fun s => mk_state (self s) (f (env s)) (cache s) (trace s)).

Definition from_option {A : Type} (o : option A) : M A :=
  match o with
  | Some a => ret a
  | None => raise OtherError
  end.
Notation "x <- m ;; k" := (bind m (fun x => k))
  (at level 61, m at next level, right associativity).
Notation "m ;;; k" := (bind m (fun _ => k))
  (at level 61, right associativity).

(** [_load_cache]: [pickle.load(open(fname, 'r'))], with [IOError] turned
    into a new empty dictionary; any other exception leaves the function. *)
Definition _load_cache : M cache_dict :=
  log LoadCache ;;;
  s <- get_state ;;
  match file (env s) with
  | Pickled c => ret c
  | Unreadable => ret []
  | Corrupt => raise OtherError
  end.

(** [_dump_cache]: [pickle.dump(cache, open(fname, 'w'))]; an [IOError] is
    raised again as [IOError]. *)
Definition _dump_cache (c : cache_dict) : M unit :=
  s <- get_state ;;
  match write_faults (env s) with
  | true :: rest =>
      set_env (fun w => mk_world (use_atm_cache w) (file w) rest) ;;;
      log (DumpCache false) ;;;
      raise IOError
  | false :: rest =>
      set_env (fun w => mk_world (use_atm_cache w) (Pickled c) rest) ;;;
      log (DumpCache true)
  | [] =>
      set_env (fun w => mk_world (use_atm_cache w) (Pickled c) []) ;;;
      log (DumpCache true)
  end.

Definition with_angle (thrad' theta_deg' : R) (a : atmosphere) : atmosphere :=
  mk_atmosphere (class_name a) (location a) (season a)
                (Some thrad') (Some theta_deg') (X_surf a) (s_X2rho a).

Definition with_profile (X_surf' : R) (s_X2rho' : Spline) (a : atmosphere)
  : atmosphere :=
  mk_atmosphere (class_name a) (location a) (season a)
                (thrad a) (theta_deg a) (Some X_surf') (Some s_X2rho').

(** [calculate_density_spline]: fails when no zenith angle is set,
    otherwise stores [X_surf] and [s_X2rho]. *)
Definition calculate_density_spline : M unit :=
  s <- get_state ;;
  match theta_deg (self s) with
  | None => raise OtherError
  | Some t =>
      log (BuildSpline t) ;;;
      set_self (with_profile (fst (density_spline (self s)))
                             (snd (density_spline (self s))))
  end.

(** The inner function [calculate_and_store(key, cache)] of [set_theta]. *)
Definition calculate_and_store (theta_deg' : R) (key : cache_key) : M unit :=
  set_self (with_angle (_theta_rad theta_deg') theta_deg') ;;;
  calculate_density_spline ;;;
  s <- get_state ;;
  entry <- from_option (dict_get key_eqb key (cache s)) ;;
  X <- from_option (X_surf (self s)) ;;
  sp <- from_option (s_X2rho (self s)) ;;
  set_cache (dict_set key_eqb key
               (dict_set Req_bool theta_deg' (Profile X sp) entry)) ;;;
  s' <- get_state ;;
  _dump_cache (cache s').

(** [self.X_surf, self.s_X2rho = cache[key][closest]]. *)
Definition install_stored (v : stored) : M unit :=
  match v with
  | Profile X sp => set_self (with_profile X sp)
  | Malformed => raise OtherError
  end.

Definition same_angle (current : option R) (theta_deg' : R) : bool :=
  match current with
  | Some t => Req_bool t theta_deg'
  | None => false
  end.

(** [key = (self.__class__.__name__, self.location, self.season)]. *)
Definition key_of (a : atmosphere) : cache_key :=
  (class_name a, location a, season a).

(** [CascadeAtmosphere.set_theta]. *)
Definition set_theta (theta_deg' : R) : M unit :=
  s <- get_state ;;
  if same_angle (theta_deg (self s)) theta_deg' then ret tt
  else if use_atm_cache (env s) then
    c <- _load_cache ;;
    set_cache (fun _ => c) ;;;
    let key := key_of (self s) in
    match dict_get key_eqb key c with
    | Some entry =>
        try_except
          (found <- from_option (_get_closest theta_deg' (dict_keys entry)) ;;
           let closest := snd found in
           if Rlt_dec (Rabs (closest - theta_deg')) 1 then
             set_self (with_angle (_theta_rad closest) closest) ;;;
             v <- from_option (dict_get Req_bool closest entry) ;;
             install_stored v
           else calculate_and_store theta_deg' key)
          (set_cache (dict_set key_eqb key []) ;;;
           calculate_and_store theta_deg' key)
    | None =>
        set_cache (dict_set key_eqb key []) ;;;
        calculate_and_store theta_deg' key
    end
  else
    set_self (with_angle (_theta_rad theta_deg') theta_deg') ;;;
    calculate_density_spline.

(** A sequence of [set_theta] calls on one store: between calls another
    object (or [init_parameters], the configuration, the file system's
    write behaviour) may change everything but the cache file. *)
Record call : Type := mk_call {
  call_self : atmosphere;
  call_use_atm_cache : bool;
  call_write_faults : list bool;
  call_theta_deg : R
}.

Definition run_call (f : cache_file) (c : call) : result unit * state :=
  set_theta (call_theta_deg c)
    (mk_state (call_self c)
              (mk_world (call_use_atm_cache c) f (call_write_faults c))
              [] []).

Fixpoint run_calls (f : cache_file) (calls : list call) : cache_file :=
  match calls with
  | [] => f
  | c :: rest => run_calls (file (env (snd (run_call f c)))) rest
  end.
End SetTheta.

Arguments Profile {Spline} X_surf s_X2rho.
Arguments Malformed {Spline}.
Arguments Unreadable {Spline}.
Arguments Corrupt {Spline}.
Arguments Pickled {Spline} c.
Arguments class_name {Spline} a.
Arguments location {Spline} a.
Arguments season {Spline} a.
Arguments thrad {Spline} a.
Arguments theta_deg {Spline} a.
Arguments X_surf {Spline} a.
Arguments s_X2rho {Spline} a.
Arguments use_atm_cache {Spline} w.
Arguments file {Spline} w.
Arguments write_faults {Spline} w.
Arguments self {Spline} s.
Arguments env {Spline} s.
Arguments cache {Spline} s.
Arguments trace {Spline} s.
Arguments mk_atmosphere {Spline}.
Arguments mk_world {Spline}.
Arguments mk_state {Spline}.
Arguments mk_call {Spline}.
Arguments with_angle {Spline}.
Arguments with_profile {Spline}.
Arguments key_of {Spline} a.
Arguments set_theta {Spline}.
Arguments run_call {Spline}.
Arguments run_calls {Spline}.

(** No spline was built during a run with this trace. *)
Definition no_build (t : list event) : Prop :=
  forall theta, ~ In (BuildSpline theta) t.

(** The invariant of the store: within one entry, distinct stored angles are
    at least one degree apart. *)
Definition well_spaced (angles : list R) : Prop :=
  forall a b, In a angles -> In b angles -> a <> b -> 1 <= Rabs (a - b).

Definition cache_well_spaced {Spline : Type} (c : cache_dict Spline) : Prop :=
  forall key entry, In (key, entry) c -> well_spaced (dict_keys entry).

Definition store_well_spaced {Spline : Type} (f : cache_file Spline) : Prop :=
  match f with
  | Pickled c => cache_well_spaced c
  | _ => True
  end.

(** During a call the local dictionary is well spaced too, and when a new
    angle is about to be stored, the entry of the key holds no other angle
    within one degree of it. *)
Definition state_well_spaced {Spline : Type} (s : state Spline) : Prop :=
  store_well_spaced (file (env s)) /\ cache_well_spaced (cache s).

Definition far_from {Spline : Type} (theta : R) (key : cache_key)
  (s : state Spline) : Prop :=
  forall entry, dict_get key_eqb key (cache s) = Some entry ->
  forall a, In a (dict_keys entry) -> a <> theta -> 1 <= Rabs (a - theta).

(** "Starting from an empty persistent store": no file yet, or an empty
    dictionary. *)
Definition empty_store {Spline : Type} (f : cache_file Spline) : Prop :=
  f = Unreadable \/ f = Pickled [].

(** ** A concrete instance

    Used to run [set_theta] on explicit states: a spline is represented by
    the key and the angle (in radians) it was built for. *)
Module Example.
Definition Spline : Type := (cache_key * R)%type.

(** Modelled from the spec: [geom._theta_rad] is not part of the sources at
    hand; "GeometryProvider: toRadians(angleDeg)". *)
Definition _theta_rad (theta_deg : R) : R := theta_deg * PI / 180.

Definition density_spline (a : atmosphere Spline) : R * Spline :=
  match thrad a with
  | Some t => (1036, (key_of a, t))
  | None => (1036, (key_of a, 0))
  end.

Definition set_theta := set_theta _theta_rad density_spline.

Definition USStd_atmosphere : atmosphere Spline :=
  mk_atmosphere "CorsikaAtmosphere" "USStd" None None None None None.

Definition USStd_key : cache_key := key_of USStd_atmosphere.

Definition initial (use_cache : bool) (f : cache_file Spline)
  (faults : list bool) : state Spline :=
  mk_state USStd_atmosphere (mk_world use_cache f faults) [] [].
End Example.

(** ** The remaining methods of the two classes *)

(** [CascadeAtmosphere.gamma_cherenkov_air] and
    [CascadeAtmosphere.theta_cherenkov_air]; [np.sqrt] and [np.arccos] are
    [sqrt] and [acos]. *)
Definition gamma_cherenkov_air (p : atm_param) (h_cm : R) : R :=
  let nrel := nref_rel_air p h_cm in
  (1 + nrel) / sqrt (2 * nrel + nrel ^ 2).

Definition theta_cherenkov_air (p : atm_param) (h_cm : R) : R :=
  acos (1 / (1 + nref_rel_air p h_cm)) * 180 / PI.

(** The height boundaries of a table do not decrease. *)
Definition heights_increasing (p : atm_param) : Prop :=
  idx (_hlay p) 0 <= idx (_hlay p) 1 /\ idx (_hlay p) 1 <= idx (_hlay p) 2 /\
  idx (_hlay p) 2 <= idx (_hlay p) 3 /\ idx (_hlay p) 3 <= idx (_hlay p) 4.

Section CorsikaObject.
Variable Spline : Type.

(** A [CorsikaAtmosphere] object: the attributes of the base class and
    [_atm_param] ([None] before the first successful [init_parameters]). *)
Record corsika_atmosphere : Type := mk_corsika_atmosphere {
  base : atmosphere Spline;
  _atm_param : option atm_param
}.

(** [CorsikaAtmosphere.init_parameters] as a method: [self.X_surf = None]
    comes first; an unknown location or season raises before anything else
    is assigned; otherwise the table, [location] and [season] are stored and
    [theta_deg] is cleared. *)
Definition CorsikaAtmosphere_init_parameters (location' : string)
  (season' : option string) (o : corsika_atmosphere)
  : result unit * corsika_atmosphere :=
  let a := base o in
  match init_parameters location' season' with
  | None =>
      (Raise OtherError,
       mk_corsika_atmosphere
         (mk_atmosphere (class_name a) (location a) (season a)
                        (thrad a) (theta_deg a) None (s_X2rho a))
         (_atm_param o))
  | Some p =>
      (Ok tt,
       mk_corsika_atmosphere
         (mk_atmosphere (class_name a) location' season'
                        (thrad a) None None (s_X2rho a))
         (Some p))
  end.

End CorsikaObject.

Arguments base {Spline} c.
Arguments _atm_param {Spline} c.
Arguments mk_corsika_atmosphere {Spline}.
Arguments CorsikaAtmosphere_init_parameters {Spline}.

(** An object is configured when its angle in radians is the conversion of
    [theta_deg] and a profile is installed, or when no angle is active. *)
Definition configured {Spline : Type} (_theta_rad : R -> R)
  (a : atmosphere Spline) : Prop :=
  match theta_deg a with
  | None => True
  | Some t =>
      thrad a = Some (_theta_rad t) /\ X_surf a <> None /\ s_X2rho a <> None
  end.

(** The dictionary [_load_cache] returns for a file that does not raise. *)
Definition loaded_dict {Spline : Type} (f : cache_file Spline)
  : cache_dict Spline :=
  match f with
  | Pickled c => c
  | _ => []
  end.

(** Two dictionaries hold the same entries under every key but [key]. *)
Definition agree_off {Spline : Type} (key : cache_key)
  (c1 c2 : cache_dict Spline) : Prop :=
  forall k, k <> key -> dict_get key_eqb k c1 = dict_get key_eqb k c2.

(** * Properties of the layered model *)

Lemma init_parameters_supported location season p :
  init_parameters location season = Some p -> In p supported_sets.
Proof.
  unfold init_parameters, supported_sets.
  repeat match goal with
         | |- context [if ?b then _ else _] => destruct b
         | |- context [match ?s with Some _ => _ | None => _ end] => destruct s
         end;
    intros H; try discriminate; injection H as <-; simpl; tauto.
Qed.

Lemma supported_well_formed p : In p supported_sets -> well_formed p.
Proof.
  unfold supported_sets. simpl.
  intros H.
  repeat (destruct H as [<- | H]); try contradiction;
    (split; [repeat split; reflexivity|]);
    (split; [repeat constructor; simpl; lra|]);
    (split; [repeat constructor; simpl; lra|]);
    (split; [unfold idx; simpl; lra|]);
    (split; [unfold idx; simpl; lra|]);
    repeat (apply Forall_cons; [lra|]); apply Forall_nil.
Qed.

Lemma idx_positive (r : list R) (l : nat) :
  Forall (fun x => 0 < x) r -> (l < List.length r)%nat -> 0 < idx r l.
Proof.
  intros Hr Hl. unfold idx.
  rewrite Forall_forall in Hr. apply Hr. now apply nth_In.
Qed.

(** *** The selection loop *)

Section SelectLayer.
Variable holds : R -> R -> bool.
Variable v : R.
Variable row : list R.

Let step (layer i : nat) : nat := if holds v (idx row i) then layer else i.

(** Invariant of the loop after [n] iterations. *)
Lemma select_layer_prefix (n : nat) :
  let l := fold_left step (seq 0 n) 0%nat in
  ((l < n)%nat /\ holds v (idx row l) = false /\
   forall j, (l < j < n)%nat -> holds v (idx row j) = true)
  \/ (l = 0%nat /\ forall j, (j < n)%nat -> holds v (idx row j) = true).
Proof.
  cbv zeta. induction n as [|n IH].
  - right. split; [reflexivity | intros j Hj; lia].
  - rewrite seq_S, fold_left_app. simpl fold_left.
    set (l := fold_left step (seq 0 n) 0%nat) in *.
    assert (Hstep : step l n = if holds v (idx row n) then l else n) by reflexivity.
    change (0 + n)%nat with n. rewrite Hstep. clear Hstep.
    destruct (holds v (idx row n)) eqn:Hn.
    + destruct IH as [(Hl & Hf & Hall) | (Hl & Hall)].
      * left. repeat split; [lia | exact Hf |].
        intros j Hj. destruct (Nat.eq_dec j n) as [-> | Hne]; [exact Hn|].
        apply Hall. lia.
      * right. split; [exact Hl|].
        intros j Hj. destruct (Nat.eq_dec j n) as [-> | Hne]; [exact Hn|].
        apply Hall. lia.
    + left. repeat split; [lia | exact Hn | intros j Hj; lia].
Qed.

Lemma select_layer_spec :
  let l := select_layer holds v row in
  ((l < List.length row)%nat /\ holds v (idx row l) = false /\
   forall j, (l < j < List.length row)%nat -> holds v (idx row j) = true)
  \/ (l = 0%nat /\ forall j, (j < List.length row)%nat -> holds v (idx row j) = true).
Proof. exact (select_layer_prefix (List.length row)). Qed.
End SelectLayer.

Lemma Rle_bool_true x y : Rle_bool x y = true <-> x <= y.
Proof. unfold Rle_bool. destruct (Rle_dec x y); split; intros; try easy. Qed.

Lemma Rle_bool_false x y : Rle_bool x y = false <-> ~ x <= y.
Proof. unfold Rle_bool. destruct (Rle_dec x y); split; intros; try easy. Qed.

Lemma Rge_bool_true x y : Rge_bool x y = true <-> x >= y.
Proof. unfold Rge_bool. destruct (Rge_dec x y); split; intros; try easy. Qed.

Lemma Rge_bool_false x y : Rge_bool x y = false <-> x < y.
Proof.
  unfold Rge_bool. destruct (Rge_dec x y); split; intros; try easy; lra.
Qed.

Lemma highest_exceeded_select hl h :
  highest_exceeded hl h (select_layer Rle_bool h hl).
Proof.
  destruct (select_layer_spec Rle_bool h hl) as [(Hl & Hf & Hall) | (Hl & Hall)].
  - left. repeat split; [exact Hl | now apply Rle_bool_false |].
    intros j Hj. now apply Rle_bool_true, Hall.
  - right. split; [exact Hl|]. intros j Hj. now apply Rle_bool_true, Hall.
Qed.

Lemma highest_exceeded_unique hl h l l' :
  highest_exceeded hl h l -> highest_exceeded hl h l' -> l' = l.
Proof.
  intros [(Hl & Hf & Hall) | (Hl & Hall)] [(Hl' & Hf' & Hall') | (Hl' & Hall')].
  - destruct (lt_eq_lt_dec l l') as [[Hlt | Heq] | Hgt]; [| now symmetry |].
    + exfalso. apply Hf'. apply Hall. lia.
    + exfalso. apply Hf. apply Hall'. lia.
  - exfalso. apply Hf. now apply Hall'.
  - exfalso. apply Hf'. now apply Hall.
  - congruence.
Qed.

Lemma thickl_below_first p l :
  well_formed p -> (l < List.length (_thickl p))%nat ->
  idx (_thickl p) l <= idx (_thickl p) 0.
Proof.
  intros (Hlen & _ & _ & Ht & _ & _) Hl.
  destruct Hlen as (_ & _ & _ & Hlt & _). rewrite Hlt in Hl.
  destruct l as [|[|[|[|[|l]]]]]; try lia; lra.
Qed.

Lemma depth_boundary_rule_select p x_v :
  well_formed p ->
  depth_boundary_rule (_thickl p) x_v (select_layer Rge_bool x_v (_thickl p)).
Proof.
  intros Hwf.
  destruct (select_layer_spec Rge_bool x_v (_thickl p))
    as [(Hl & Hf & Hall) | (Hl & Hall)].
  - left. repeat split; [exact Hl | now apply Rge_bool_false |].
    intros j Hj Hlt. apply Rge_bool_false in Hlt.
    rewrite (Hall j Hj) in Hlt. discriminate.
  - right. split; [exact Hl|]. apply Rge_bool_true, Hall.
    destruct Hwf as ((_ & _ & _ & Hlt & _) & _). rewrite Hlt. lia.
Qed.

Lemma depth_boundary_rule_unique p x_v l l' :
  well_formed p ->
  depth_boundary_rule (_thickl p) x_v l ->
  depth_boundary_rule (_thickl p) x_v l' -> l' = l.
Proof.
  intros Hwf [(Hl & Hf & Hall) | (Hl & Hge)] [(Hl' & Hf' & Hall') | (Hl' & Hge')].
  - destruct (lt_eq_lt_dec l l') as [[Hlt | Heq] | Hgt]; [| now symmetry |].
    + exfalso. apply (Hall l'); [lia | exact Hf'].
    + exfalso. apply (Hall' l); [lia | exact Hf].
  - pose proof (thickl_below_first p l Hwf Hl). lra.
  - pose proof (thickl_below_first p l' Hwf Hl'). lra.
  - congruence.
Qed.

(** C2: [get_density] evaluates the layer formula at the highest layer index
    whose height boundary is exceeded (NOT [h <= hlay[l]]), layer 0 when no
    boundary is exceeded; the top layer (index 4) gives [b[4]/c[4]] without
    the exponential factor.  The index is unique.  This holds for every
    parameter table, in particular for every supported one. *)
Theorem get_density_highest_exceeded_layer (p : atm_param) (h : R) :
  exists l : nat,
    highest_exceeded (_hlay p) h l /\
    (forall l', highest_exceeded (_hlay p) h l' -> l' = l) /\
    get_density p h =
      if (l =? 4)%nat then idx (_batm p) 4 / idx (_catm p) 4
      else idx (_batm p) l / idx (_catm p) l * exp (- h / idx (_catm p) l).
Proof.
  exists (select_layer Rle_bool h (_hlay p)).
  split; [apply highest_exceeded_select|].
  split; [|reflexivity].
  intros l' Hl'. eapply highest_exceeded_unique; [apply highest_exceeded_select | exact Hl'].
Qed.

(** C8: for every supported parameter set, [planar_rho_inv_jit] projects the
    slant depth to [x_v = X * cos_theta], selects the layer by the
    depth-boundary rule (largest [l] with [x_v < thickl[l]], layer 0 when
    [x_v >= thickl[0]]; the rule determines [l] uniquely) and returns
    [c[4]/b[4]] for the top layer and [c[l]/(x_v - a[l])] otherwise. *)
Theorem planar_rho_inv_jit_depth_boundary_rule
  (location : string) (season : option string) (p : atm_param) (X cos_theta : R) :
  init_parameters location season = Some p ->
  exists l : nat,
    depth_boundary_rule (_thickl p) (X * cos_theta) l /\
    (forall l', depth_boundary_rule (_thickl p) (X * cos_theta) l' -> l' = l) /\
    planar_rho_inv_jit X cos_theta p =
      if (l =? 4)%nat then idx (_catm p) 4 / idx (_batm p) 4
      else idx (_catm p) l / (X * cos_theta - idx (_aatm p) l).
Proof.
  intros Hinit.
  assert (Hwf : well_formed p)
    by (eapply supported_well_formed, init_parameters_supported, Hinit).
  exists (select_layer Rge_bool (X * cos_theta) (_thickl p)).
  split; [now apply depth_boundary_rule_select|].
  split; [|reflexivity].
  intros l' Hl'.
  eapply depth_boundary_rule_unique; [exact Hwf | now apply depth_boundary_rule_select | exact Hl'].
Qed.

Lemma planar_rho_inv_jit_witness :
  init_parameters "USStd" None = Some param_USStd /\
  exists l : nat,
    depth_boundary_rule (_thickl param_USStd) (500 * 1) l /\
    (forall l', depth_boundary_rule (_thickl param_USStd) (500 * 1) l' -> l' = l) /\
    planar_rho_inv_jit 500 1 param_USStd =
      if (l =? 4)%nat then idx (_catm param_USStd) 4 / idx (_batm param_USStd) 4
      else idx (_catm param_USStd) l / (500 * 1 - idx (_aatm param_USStd) l).
Proof.
  split; [reflexivity|].
  apply (planar_rho_inv_jit_depth_boundary_rule "USStd" None param_USStd 500 1).
  reflexivity.
Defined.

Lemma select_layer_in_range holds v row :
  row <> [] -> (select_layer holds v row < List.length row)%nat.
Proof.
  intros Hne.
  destruct (select_layer_spec holds v row) as [(Hl & _) | (Hl & _)]; [exact Hl|].
  rewrite Hl. destruct row; [contradiction | simpl; lia].
Qed.

Lemma corsika_density_positive p h : well_formed p -> 0 < corsika_get_density_jit h p.
Proof.
  intros ((_ & Hlb & Hlc & _ & Hlh) & Hb & Hc & _).
  unfold corsika_get_density_jit. cbv zeta.
  set (l := select_layer Rle_bool h (_hlay p)).
  assert (Hl : (l < 5)%nat).
  { rewrite <- Hlh. apply select_layer_in_range.
    intros E. rewrite E in Hlh. discriminate. }
  assert (Hb4 : 0 < idx (_batm p) 4) by (apply idx_positive; [assumption | lia]).
  assert (Hc4 : 0 < idx (_catm p) 4) by (apply idx_positive; [assumption | lia]).
  assert (Hbl : 0 < idx (_batm p) l) by (apply idx_positive; [assumption | lia]).
  assert (Hcl : 0 < idx (_catm p) l) by (apply idx_positive; [assumption | lia]).
  destruct (l =? 4)%nat.
  - now apply Rdiv_lt_0_compat.
  - apply Rmult_lt_0_compat; [now apply Rdiv_lt_0_compat | apply exp_pos].
Qed.

Lemma corsika_density_below_surface p h :
  well_formed p -> h <= 0 ->
  corsika_get_density_jit h p
  = idx (_batm p) 0 / idx (_catm p) 0 * exp (- h / idx (_catm p) 0).
Proof.
  intros (_ & _ & _ & _ & _ & Hhl) Hh.
  assert (H0 : highest_exceeded (_hlay p) h 0).
  { right. split; [reflexivity|]. intros j Hj.
    assert (0 <= idx (_hlay p) j); [|lra].
    unfold idx. rewrite Forall_forall in Hhl. apply Hhl. now apply nth_In. }
  pose proof (highest_exceeded_unique _ _ _ _ H0
                (highest_exceeded_select (_hlay p) h)) as Hl.
  unfold corsika_get_density_jit. cbv zeta. now rewrite Hl.
Qed.

(** C10: for every supported parameter set and every real height (negative
    ones included, which exceed no boundary and are evaluated by the
    exponential of layer 0) the density is strictly positive, so the
    denominators of [moliere_air] and [nref_rel_air] are never zero. *)
Theorem corsika_get_density_jit_positive
  (location : string) (season : option string) (p : atm_param) (h : R) :
  init_parameters location season = Some p ->
  0 < corsika_get_density_jit h p /\
  (h <= 0 ->
   corsika_get_density_jit h p
   = idx (_batm p) 0 / idx (_catm p) 0 * exp (- h / idx (_catm p) 0)) /\
  get_density p h * 100 <> 0 /\
  get_density p 0 <> 0 /\
  0 < moliere_air p h.
Proof.
  intros Hinit.
  assert (Hwf : well_formed p)
    by (eapply supported_well_formed, init_parameters_supported, Hinit).
  pose proof (corsika_density_positive p h Hwf) as Hh.
  pose proof (corsika_density_positive p 0 Hwf) as H0.
  split; [exact Hh|].
  split; [now apply corsika_density_below_surface|].
  unfold moliere_air, get_density.
  repeat split; try lra.
  apply Rdiv_lt_0_compat; lra.
Qed.

Lemma corsika_get_density_jit_positive_witness :
  init_parameters "SouthPole" (Some "June"%string) = Some param_SouthPole_June /\
  0 < corsika_get_density_jit (-100) param_SouthPole_June /\
  get_density param_SouthPole_June (-100) * 100 <> 0 /\
  get_density param_SouthPole_June 0 <> 0 /\
  0 < moliere_air param_SouthPole_June (-100).
Proof.
  split; [reflexivity|].
  destruct (corsika_get_density_jit_positive "SouthPole" (Some "June"%string)
              param_SouthPole_June (-100) eq_refl) as (Hpos & _ & Hm & H0 & Hmol).
  repeat split; assumption.
Defined.

(** *** Enclosures of the exponential *)

Lemma exp_term_pow_fact y k : exp_term y k = y ^ k / INR (fact k).
Proof.
  induction k as [|k IH].
  - simpl. lra.
  - change (exp_term y (S k)) with (exp_term y k * y / INR (S k)).
    rewrite IH, fact_simpl, mult_INR. simpl pow.
    field. split; [apply INR_fact_neq_0 | apply not_0_INR; lia].
Qed.

Lemma exp_alt_sum_series y n :
  sum_f_R0 (tg_alt (fun i => y ^ i / INR (fact i))) n = exp_alt_sum y n.
Proof.
  induction n as [|n IH].
  - unfold tg_alt. simpl. lra.
  - rewrite tech5, IH. unfold tg_alt at 1.
    change (exp_alt_sum y (S n))
      with (exp_alt_sum y n + (-1) ^ S n * exp_term y (S n)).
    now rewrite exp_term_pow_fact.
Qed.

Lemma exp_term_decreasing y :
  0 <= y <= 1 -> Un_decreasing (fun i => y ^ i / INR (fact i)).
Proof.
  intros [H0 H1] n. rewrite <- !exp_term_pow_fact.
  change (exp_term y (S n)) with (exp_term y n * y / INR (S n)).
  assert (Ht : 0 <= exp_term y n).
  { rewrite exp_term_pow_fact. apply Rmult_le_pos.
    - now apply pow_le.
    - left. apply Rinv_0_lt_compat, INR_fact_lt_0. }
  assert (Hn : 1 <= INR (S n)) by (rewrite S_INR; pose proof (pos_INR n); lra).
  assert (Hi : 0 < / INR (S n) <= 1).
  { split; [apply Rinv_0_lt_compat; lra|].
    apply Rle_trans with (/ 1); [apply Rinv_le_contravar; lra | rewrite Rinv_1; lra]. }
  assert (Hty : 0 <= exp_term y n * y <= exp_term y n) by nra.
  unfold Rdiv. nra.
Qed.

Lemma exp_neg_series y :
  Un_cv (fun N => sum_f_R0 (tg_alt (fun i => y ^ i / INR (fact i))) N) (exp (- y)).
Proof.
  assert (H : exp_in (- y) (exp (- y))).
  { unfold exp. destruct (exist_exp (- y)) as [l Hl]. exact Hl. }
  unfold exp_in, infinite_sum in H.
  intros eps Heps. destruct (H eps Heps) as [N HN]. exists N. intros n Hn.
  specialize (HN n Hn).
  replace (sum_f_R0 (tg_alt (fun i => y ^ i / INR (fact i))) n)
    with (sum_f_R0 (fun i => / INR (fact i) * (- y) ^ i) n); [exact HN|].
  apply sum_eq. intros i _. unfold tg_alt.
  replace (- y) with (-1 * y) by ring. rewrite Rpow_mult_distr. field.
  apply INR_fact_neq_0.
Qed.

(** For [0 <= y <= 1] the odd partial sums bound [exp (- y)] from below and
    the even ones from above. *)
Lemma exp_neg_enclosure y N :
  0 <= y <= 1 ->
  exp_alt_sum y (S (2 * N)) <= exp (- y) <= exp_alt_sum y (2 * N).
Proof.
  intros Hy. rewrite <- !exp_alt_sum_series.
  apply alternated_series_ineq.
  - now apply exp_term_decreasing.
  - apply cv_speed_pow_fact.
  - apply exp_neg_series.
Qed.

Lemma exp_pow_nat x n : exp x ^ n = exp (INR n * x).
Proof.
  induction n as [|n IH].
  - simpl. now rewrite Rmult_0_l, exp_0.
  - rewrite S_INR. simpl pow. rewrite IH, <- exp_plus. f_equal. ring.
Qed.

(** Argument reduction: [exp (- x)] with [x = n * y] is the [n]-th power of
    [exp (- y)]. *)
Lemma exp_neg_upper x y q n N :
  0 <= y <= 1 -> x = INR n * y -> exp_alt_sum y (2 * N) <= q ->
  exp (- x) <= q ^ n.
Proof.
  intros Hy -> Hq.
  replace (- (INR n * y)) with (INR n * - y) by ring.
  rewrite <- exp_pow_nat. apply pow_incr. split; [left; apply exp_pos|].
  destruct (exp_neg_enclosure y N Hy) as [_ Hub]. lra.
Qed.

Lemma exp_neg_lower x y q n N :
  0 <= y <= 1 -> x = INR n * y -> 0 <= q <= exp_alt_sum y (S (2 * N)) ->
  q ^ n <= exp (- x).
Proof.
  intros Hy -> Hq.
  replace (- (INR n * y)) with (INR n * - y) by ring.
  rewrite <- exp_pow_nat. apply pow_incr. split; [lra|].
  destruct (exp_neg_enclosure y N Hy) as [Hlb _]. lra.
Qed.

(** Karlsruhe, layer 3 at its upper boundary 100 km. *)
Lemma exp_bound_Karlsruhe :
  555.8935 * exp (- (1.0e7 / 739059.6)) < 0.00074097944.
Proof.
  assert (H : exp (- (1.0e7 / 739059.6)) <= 0.42928 ^ 16).
  { apply (exp_neg_upper _ (1.0e7 / 739059.6 / 16) _ 16 4).
    - lra.
    - simpl INR. lra.
    - simpl. lra. }
  lra.
Qed.

(** PL_SouthPole/August, layer 3 at 99.95 km. *)
Lemma exp_bound_PL_August :
  0.0000218 < 1647.1 * exp (- (9995000 / 551010)) < 0.000022.
Proof.
  assert (Hu : exp (- (9995000 / 551010)) <= 0.56731 ^ 32).
  { apply (exp_neg_upper _ (9995000 / 551010 / 32) _ 32 4).
    - lra.
    - simpl INR. lra.
    - simpl. lra. }
  assert (Hl : 0.56730 ^ 32 <= exp (- (9995000 / 551010))).
  { apply (exp_neg_lower _ (9995000 / 551010 / 32) _ 32 3).
    - lra.
    - simpl INR. lra.
    - simpl. lra. }
  lra.
Qed.

(** *** The two transforms, layer by layer *)

Lemma height2depth_by_layer p h :
  height2depth p h = layer_depth p (height_layer p h) h.
Proof.
  unfold height2depth, height_layer, layer_depth. cbv zeta.
  repeat destruct (Rle_dec _ _); reflexivity.
Qed.

Lemma depth2height_by_layer p x :
  depth2height p x = layer_height p (depth_layer p x) x.
Proof.
  unfold depth2height, depth_layer, layer_height. cbv zeta.
  repeat destruct (Rge_dec _ _); reflexivity.
Qed.

Lemma height_layer_le_4 p h : (height_layer p h <= 4)%nat.
Proof.
  unfold height_layer. cbv zeta. repeat destruct (Rle_dec _ _); lia.
Qed.

Lemma depth_layer_le_4 p x : (depth_layer p x <= 4)%nat.
Proof.
  unfold depth_layer. cbv zeta. repeat destruct (Rge_dec _ _); lia.
Qed.

Lemma well_formed_positive p l :
  well_formed p -> (l <= 4)%nat -> 0 < idx (_batm p) l /\ 0 < idx (_catm p) l.
Proof.
  intros ((_ & Hlb & Hlc & _) & Hb & Hc & _) Hl.
  split; apply idx_positive; try assumption; lia.
Qed.

(** Within one layer the closed forms are exact inverses. *)
Lemma layer_height_layer_depth p l h :
  well_formed p -> (l <= 4)%nat -> layer_height p l (layer_depth p l h) = h.
Proof.
  intros Hwf Hl.
  destruct (well_formed_positive p l Hwf Hl) as [Hb Hc].
  destruct (well_formed_positive p 4 Hwf (Nat.le_refl 4)) as [_ Hc4].
  unfold layer_height, layer_depth. destruct (l =? 4)%nat.
  - field. lra.
  - set (a := idx (_aatm p) l). set (b := idx (_batm p) l) in *.
    set (c := idx (_catm p) l) in *.
    replace (b / (a + b * exp (- h / c) - a)) with (exp (h / c)).
    + rewrite ln_exp. field. lra.
    + replace (- h / c) with (- (h / c)) by (field; lra).
      rewrite exp_Ropp. field. split; [apply Rgt_not_eq, exp_pos | lra].
Qed.

Lemma layer_depth_decreasing p l h1 h2 :
  well_formed p -> (l <= 4)%nat -> h1 < h2 ->
  layer_depth p l h2 < layer_depth p l h1.
Proof.
  intros Hwf Hl Hlt.
  destruct (well_formed_positive p l Hwf Hl) as [Hb Hc].
  destruct (well_formed_positive p 4 Hwf (Nat.le_refl 4)) as [_ Hc4].
  unfold layer_depth. destruct (l =? 4)%nat.
  - assert (h1 / idx (_catm p) 4 < h2 / idx (_catm p) 4).
    { unfold Rdiv. apply Rmult_lt_compat_r; [now apply Rinv_0_lt_compat | exact Hlt]. }
    lra.
  - assert (He : exp (- h2 / idx (_catm p) l) < exp (- h1 / idx (_catm p) l)).
    { apply exp_increasing. unfold Rdiv.
      apply Rmult_lt_compat_r; [now apply Rinv_0_lt_compat | lra]. }
    nra.
Qed.

Lemma layer_height_decreasing p l x1 x2 :
  well_formed p -> (l <= 4)%nat ->
  ((l < 4)%nat -> idx (_aatm p) l < x1) -> x1 < x2 ->
  layer_height p l x2 < layer_height p l x1.
Proof.
  intros Hwf Hl Ha Hlt.
  destruct (well_formed_positive p l Hwf Hl) as [Hb Hc].
  destruct (well_formed_positive p 4 Hwf (Nat.le_refl 4)) as [_ Hc4].
  unfold layer_height. destruct (l =? 4)%nat eqn:E.
  - nra.
  - apply Nat.eqb_neq in E. assert (Ha1 : idx (_aatm p) l < x1) by (apply Ha; lia).
    set (a := idx (_aatm p) l) in *. set (b := idx (_batm p) l) in *.
    set (c := idx (_catm p) l) in *.
    assert (Hq : 0 < b / (x2 - a) < b / (x1 - a)).
    { split.
      - apply Rdiv_lt_0_compat; lra.
      - unfold Rdiv. apply Rmult_lt_compat_l; [exact Hb|].
        apply Rinv_lt_contravar; [nra | lra]. }
    assert (Hln : ln (b / (x2 - a)) < ln (b / (x1 - a))) by (apply ln_increasing; lra).
    nra.
Qed.

(** On the depth band of a layer below the top one, the argument of the
    logarithm is positive. *)
Lemma depth_layer_above_a p x :
  well_formed p -> (depth_layer p x < 4)%nat ->
  idx (_aatm p) (depth_layer p x) < x.
Proof.
  intros (_ & _ & _ & Ht & Ha & _). unfold depth_layer. cbv zeta.
  repeat destruct (Rge_dec _ _); intros Hl; try lia; lra.
Qed.

(** C1, as amended: for every supported parameter set and every height
    [h] for which [depth2height] selects, at the depth [height2depth h], the
    same layer that [height2depth] selected at [h], the round trip
    [depth2height (height2depth h)] returns [h] exactly. *)
Theorem depth2height_height2depth_same_layer
  (location : string) (season : option string) (p : atm_param) (h : R) :
  init_parameters location season = Some p ->
  depth_layer p (height2depth p h) = height_layer p h ->
  depth2height p (height2depth p h) = h.
Proof.
  intros Hinit Hsame.
  assert (Hwf : well_formed p)
    by (eapply supported_well_formed, init_parameters_supported, Hinit).
  rewrite depth2height_by_layer, Hsame, height2depth_by_layer.
  apply layer_height_layer_depth; [exact Hwf | apply height_layer_le_4].
Qed.

(** C4, as amended: for every supported parameter set, [height2depth] is
    strictly decreasing between two heights of the same layer, and
    [depth2height] is strictly decreasing between two depths of the same
    layer. *)
Theorem height2depth_depth2height_decreasing_within_layer
  (location : string) (season : option string) (p : atm_param) :
  init_parameters location season = Some p ->
  (forall h1 h2, h1 < h2 -> height_layer p h1 = height_layer p h2 ->
                 height2depth p h2 < height2depth p h1) /\
  (forall x1 x2, x1 < x2 -> depth_layer p x1 = depth_layer p x2 ->
                 depth2height p x2 < depth2height p x1).
Proof.
  intros Hinit.
  assert (Hwf : well_formed p)
    by (eapply supported_well_formed, init_parameters_supported, Hinit).
  split.
  - intros h1 h2 Hlt Hsame.
    rewrite !height2depth_by_layer, <- Hsame.
    apply layer_depth_decreasing; [exact Hwf | apply height_layer_le_4 | exact Hlt].
  - intros x1 x2 Hlt Hsame.
    rewrite !depth2height_by_layer, <- Hsame.
    apply layer_height_decreasing;
      [exact Hwf | apply depth_layer_le_4 | | exact Hlt].
    intros Hl. now apply depth_layer_above_a.
Qed.

Lemma depth2height_height2depth_same_layer_witness :
  init_parameters "USStd" None = Some param_USStd /\
  depth_layer param_USStd (height2depth param_USStd 1.0e5)
    = height_layer param_USStd 1.0e5 /\
  depth2height param_USStd (height2depth param_USStd 1.0e5) = 1.0e5.
Proof.
  assert (Hinit : init_parameters "USStd" None = Some param_USStd) by reflexivity.
  assert (Hh : height_layer param_USStd 1.0e5 = 0%nat).
  { unfold height_layer, idx; simpl. destruct (Rle_dec _ _); [reflexivity | lra]. }
  assert (Hx : 631.100309 <= height2depth param_USStd 1.0e5).
  { rewrite height2depth_by_layer, Hh. unfold layer_depth, idx; simpl.
    pose proof (exp_ineq1_le (- (1.0e5) / 994186.38)). lra. }
  assert (Hd : depth_layer param_USStd (height2depth param_USStd 1.0e5) = 0%nat).
  { unfold depth_layer, idx; simpl. destruct (Rge_dec _ _); [reflexivity | lra]. }
  split; [exact Hinit|]. split; [now rewrite Hd, Hh|].
  apply (depth2height_height2depth_same_layer "USStd" None param_USStd 1.0e5 Hinit).
  now rewrite Hd, Hh.
Defined.

(** C1 as stated fails near a layer boundary: for PL_SouthPole/August the
    height 99.95 km lies strictly inside layer 3 (20 km to 100 km), its depth
    is below the tabulated [thickl[4] = 0.000022], so [depth2height] applies
    the top-layer formula and returns less than 99.90 km, off by far more
    than a relative 1e-6. *)
Lemma depth2height_height2depth_counterexample :
  init_parameters "PL_SouthPole" (Some "August"%string) = Some param_PL_SouthPole_August /\
  idx (_hlay param_PL_SouthPole_August) 3 < 9995000 < idx (_hlay param_PL_SouthPole_August) 4 /\
  depth2height param_PL_SouthPole_August (height2depth param_PL_SouthPole_August 9995000)
    <> 9995000 /\
  1.0e-6 * 9995000 <
    Rabs (depth2height param_PL_SouthPole_August
            (height2depth param_PL_SouthPole_August 9995000) - 9995000).
Proof.
  pose proof exp_bound_PL_August as Hb.
  assert (Hx : height2depth param_PL_SouthPole_August 9995000
               = 1647.1 * exp (- (9995000 / 551010))).
  { unfold height2depth, idx; simpl.
    repeat (destruct (Rle_dec _ _); try lra).
    match goal with
    | |- context [exp ?u] => replace u with (- (9995000 / 551010)) by lra
    end.
    lra. }
  set (e := exp (- (9995000 / 551010))) in *.
  assert (Hy : depth2height param_PL_SouthPole_August (1647.1 * e)
               = (0.000190175 - 1647.1 * e) * 59.329575e9).
  { unfold depth2height, idx; simpl.
    repeat (destruct (Rge_dec _ _); try lra). }
  rewrite Hx, Hy.
  assert (Hlt : (0.000190175 - 1647.1 * e) * 59.329575e9 < 9995000 - 5000) by lra.
  split; [reflexivity|]. split; [unfold idx; simpl; lra|].
  split; [lra|].
  rewrite Rabs_left; lra.
Qed.

Lemma height2depth_depth2height_decreasing_within_layer_witness :
  init_parameters "USStd" None = Some param_USStd /\
  (1.0e5 < 2.0e5 /\
   height_layer param_USStd 1.0e5 = height_layer param_USStd 2.0e5 /\
   height2depth param_USStd 2.0e5 < height2depth param_USStd 1.0e5) /\
  (700 < 800 /\
   depth_layer param_USStd 700 = depth_layer param_USStd 800 /\
   depth2height param_USStd 800 < depth2height param_USStd 700).
Proof.
  assert (Hinit : init_parameters "USStd" None = Some param_USStd) by reflexivity.
  assert (Hlh : height_layer param_USStd 1.0e5 = height_layer param_USStd 2.0e5).
  { unfold height_layer, idx; simpl.
    repeat (destruct (Rle_dec _ _); try lra); reflexivity. }
  assert (Hld : depth_layer param_USStd 700 = depth_layer param_USStd 800).
  { unfold depth_layer, idx; simpl.
    repeat (destruct (Rge_dec _ _); try lra); reflexivity. }
  destruct (height2depth_depth2height_decreasing_within_layer "USStd" None param_USStd Hinit)
    as [Hh Hd].
  split; [exact Hinit|]. split.
  - split; [lra|]. split; [exact Hlh|]. apply Hh; [lra | exact Hlh].
  - split; [lra|]. split; [exact Hld|]. apply Hd; [lra | exact Hld].
Defined.

(** The second entry of [_aatm] for PL_SouthPole/January is seven orders of
    magnitude away from its neighbours: everywhere in layer 1 the depth comes
    out negative. *)
Lemma height2depth_PL_SouthPole_January_layer_1 (h : R) :
  2.67e5 < h <= 5.33e5 -> height2depth param_PL_SouthPole_January h < -7929000.
Proof.
  intros [Hlo Hhi].
  unfold height2depth, idx; simpl.
  repeat (destruct (Rle_dec _ _); try lra).
  assert (He : exp (- h / 826340) < 1).
  { rewrite <- exp_0. apply exp_increasing. lra. }
  lra.
Qed.

(** C4 as stated fails across a layer boundary: for Karlsruhe the depth at
    100 km, computed by layer 3, is smaller than the depth at 100.01 km,
    computed by the top layer. *)
Lemma height2depth_decreasing_counterexample :
  init_parameters "Karlsruhe" None = Some param_Karlsruhe /\
  1.0e7 < 10001000 /\
  height2depth param_Karlsruhe 1.0e7 < height2depth param_Karlsruhe 10001000.
Proof.
  pose proof exp_bound_Karlsruhe as Hb.
  assert (H1 : height2depth param_Karlsruhe 1.0e7
               = 5.4094056e-4 + 555.8935 * exp (- (1.0e7 / 739059.6))).
  { unfold height2depth, idx; simpl.
    repeat (destruct (Rle_dec _ _); try lra).
    match goal with
    | |- context [exp ?u] => replace u with (- (1.0e7 / 739059.6)) by lra
    end.
    lra. }
  set (e := exp (- (1.0e7 / 739059.6))) in *.
  assert (H2 : height2depth param_Karlsruhe 10001000 = 0.01128292 - 10001000 / 1.0e9).
  { unfold height2depth, idx; simpl.
    repeat (destruct (Rle_dec _ _); try lra). }
  rewrite H1, H2.
  split; [reflexivity|]. split; lra.
Qed.

(** * Properties of [set_theta] and the cache *)

Lemma _get_closest_from_spec value rest :
  forall best_i best i,
    let a := snd (_get_closest_from value best_i best i rest) in
    (a = best \/ In a rest) /\
    Rabs (a - value) <= Rabs (best - value) /\
    forall x, In x rest -> Rabs (a - value) <= Rabs (x - value).
Proof.
  induction rest as [|x r IH]; intros best_i best i; simpl.
  - split; [now left|]. split; [lra | intros x []].
  - destruct (Rlt_dec (Rabs (x - value)) (Rabs (best - value))) as [Hlt | Hge].
    + destruct (IH i x (S i)) as (Hin & Hle & Hall). cbv zeta in *.
      split; [destruct Hin as [-> | Hin]; auto|].
      split; [lra|].
      intros y [<- | Hy]; [exact Hle | now apply Hall].
    + destruct (IH best_i best (S i)) as (Hin & Hle & Hall). cbv zeta in *.
      split; [destruct Hin as [-> | Hin]; auto|].
      split; [exact Hle|].
      intros y [<- | Hy]; [lra | now apply Hall].
Qed.

(** The modelled [_get_closest] returns a nearest element of the list. *)
Lemma _get_closest_nearest value in_list found :
  _get_closest value in_list = Some found ->
  In (snd found) in_list /\
  forall x, In x in_list -> Rabs (snd found - value) <= Rabs (x - value).
Proof.
  destruct in_list as [|x r]; simpl; [discriminate|].
  intros [= <-].
  destruct (_get_closest_from_spec value r 0%nat x 1%nat) as (Hin & Hle & Hall).
  cbv zeta in *. split.
  - destruct Hin as [-> | Hin]; auto.
  - intros y [<- | Hy]; [exact Hle | now apply Hall].
Qed.

Lemma _get_closest_nonempty value in_list :
  in_list <> [] -> exists found, _get_closest value in_list = Some found.
Proof.
  destruct in_list as [|x r]; [contradiction|]. intros _. simpl. eauto.
Qed.

Lemma dict_get_In {K V : Type} (eqb : K -> K -> bool) (k : K) (d : list (K * V)) v :
  (forall a b, eqb a b = true -> a = b) ->
  dict_get eqb k d = Some v -> In (k, v) d.
Proof.
  intros Heq. induction d as [|[k' v'] r IH]; simpl; [discriminate|].
  destruct (eqb k' k) eqn:E.
  - intros [= <-]. left. f_equal. now apply Heq.
  - intros H. right. now apply IH.
Qed.

Lemma dict_set_In {K V : Type} (eqb : K -> K -> bool) (k : K) (v : V)
  (d : list (K * V)) k0 v0 :
  In (k0, v0) (dict_set eqb k v d) -> (k0 = k /\ v0 = v) \/ In (k0, v0) d.
Proof.
  induction d as [|[k' v'] r IH]; simpl.
  - intros [[= <- <-] | []]. now left.
  - destruct (eqb k' k).
    + intros [[= <- <-] | H]; [now left | right; now right].
    + intros [H | H]; [right; now left|].
      destruct (IH H) as [? | ?]; [now left | right; now right].
Qed.

Lemma Req_bool_eq a b : Req_bool a b = true -> a = b.
Proof. unfold Req_bool. now destruct (Req_dec_T a b). Qed.

Lemma Req_bool_refl a : Req_bool a a = true.
Proof. unfold Req_bool. now destruct (Req_dec_T a a). Qed.

Lemma key_eqb_eq a b : key_eqb a b = true -> a = b.
Proof.
  destruct a as [[c1 l1] s1], b as [[c2 l2] s2]. simpl.
  intros H. apply andb_prop in H as [H Hs]. apply andb_prop in H as [Hc Hl].
  apply String.eqb_eq in Hc, Hl. subst.
  destruct s1, s2; simpl in Hs; try discriminate; [|reflexivity].
  apply String.eqb_eq in Hs. now subst.
Qed.

Section SetThetaProperties.
Variable Spline : Type.
Variable _theta_rad : R -> R.
Variable density_spline : atmosphere Spline -> R * Spline.

Lemma same_angle_false (current : option R) (theta : R) :
  current <> Some theta -> same_angle current theta = false.
Proof.
  destruct current as [t|]; simpl; [|reflexivity].
  intros H. unfold Req_bool. destruct (Req_dec_T t theta); [|reflexivity].
  subst. now elim H.
Qed.

Lemma same_angle_true (current : option R) (theta : R) :
  same_angle current theta = true -> current = Some theta.
Proof.
  destruct current as [t|]; simpl; [|discriminate].
  intros H. now apply Req_bool_eq in H as ->.
Qed.

(** A strictly nearest stored angle is the one [_get_closest] returns. *)
Lemma _get_closest_strictly_nearest (theta A : R) (angles : list R) :
  In A angles ->
  (forall a, In a angles -> a <> A -> Rabs (A - theta) < Rabs (a - theta)) ->
  exists i, _get_closest theta angles = Some (i, A).
Proof.
  intros HA Hnear.
  destruct (_get_closest_nonempty theta angles) as [[i a] Hfound].
  { intros E. rewrite E in HA. contradiction. }
  exists i. rewrite Hfound. do 2 f_equal.
  destruct (_get_closest_nearest _ _ _ Hfound) as [Hin Hmin]. simpl in *.
  destruct (Req_dec_T a A) as [E | NE]; [exact E|].
  pose proof (Hnear a Hin NE). pose proof (Hmin A HA). lra.
Qed.

(** C3: with caching enabled, a store holding an entry for the object's
    key, a request different from the active angle, and the stored angle
    [A] nearest to the request less than one degree away from it,
    [set_theta] installs the pair stored for [A] without building a
    spline (the call only loads the cache); afterwards [theta_deg] is [A]
    and [thrad] its conversion, not those of the requested angle. *)
Theorem set_theta_snaps_to_stored_angle
  (s : state Spline) (theta A X : R) (sp : Spline)
  (c : cache_dict Spline) (entry : cache_entry Spline) :
  use_atm_cache (env s) = true ->
  file (env s) = Pickled c ->
  dict_get key_eqb (key_of (self s)) c = Some entry ->
  theta_deg (self s) <> Some theta ->
  In A (dict_keys entry) ->
  (forall a, In a (dict_keys entry) -> a <> A ->
             Rabs (A - theta) < Rabs (a - theta)) ->
  Rabs (A - theta) < 1 ->
  dict_get Req_bool A entry = Some (Profile X sp) ->
  exists s',
    set_theta _theta_rad density_spline theta s = (Ok tt, s') /\
    self s' = with_profile X sp (with_angle (_theta_rad A) A (self s)) /\
    theta_deg (self s') = Some A /\
    thrad (self s') = Some (_theta_rad A) /\
    X_surf (self s') = Some X /\
    s_X2rho (self s') = Some sp /\
    env s' = env s /\
    trace s' = trace s ++ [LoadCache].
Proof.
  intros Huse Hfile Hkey Hneq HA Hnear Hclose Hstored.
  destruct (_get_closest_strictly_nearest theta A _ HA Hnear) as [i Hfound].
  unfold set_theta, bind, get_state.
  rewrite (same_angle_false _ _ Hneq), Huse.
  unfold _load_cache, bind, log, modify, get_state, set_cache. simpl.
  rewrite Hfile. simpl. rewrite Hkey.
  unfold try_except, bind. rewrite Hfound. simpl.
  destruct (Rlt_dec (Rabs (A - theta)) 1) as [_ | Hn]; [|contradiction].
  unfold set_self, modify. simpl. rewrite Hstored. simpl.
  eexists. split; [reflexivity|]. simpl. repeat split; reflexivity.
Qed.

Ltac run_monad :=
  unfold calculate_and_store, calculate_density_spline, _dump_cache,
    _load_cache, install_stored, from_option, try_except, bind, log,
    set_self, set_cache, set_env, modify, get_state, ret, raise in *;
  simpl in *.

Ltac case_split :=
  match goal with
  | |- context [match ?x with _ => _ end] =>
      lazymatch x with
      | context [match _ with _ => _ end] => fail
      | _ => destruct x eqn:?
      end
  end; simpl in *.

(** Whatever its outcome, [calculate_and_store] leaves the requested angle
    as the active one. *)
Lemma calculate_and_store_angle theta key (s : state Spline) :
  theta_deg (self (snd (calculate_and_store _ _theta_rad density_spline theta key s)))
  = Some theta.
Proof.
  run_monad. repeat case_split; reflexivity.
Qed.

Ltac run_set_theta :=
  unfold set_theta, calculate_density_spline, _load_cache, install_stored,
    from_option, try_except, bind, log, set_self, set_cache, set_env,
    modify, get_state, ret, raise in *;
  simpl in *.

(** The ways a call can end: with the requested angle active (nothing to
    do, or a spline built), with the exception of a cache file that does
    not unpickle, or snapped to a stored angle. *)
Lemma set_theta_cases theta (s0 s1 : state Spline) (r : result unit) :
  set_theta _theta_rad density_spline theta s0 = (r, s1) ->
  theta_deg (self s1) = Some theta
  \/ (r = Raise OtherError /\ file (env s0) = Corrupt /\
      self s1 = self s0 /\ env s1 = env s0 /\
      trace s1 = trace s0 ++ [LoadCache])
  \/ (exists c entry i closest X sp,
        r = Ok tt /\
        same_angle (theta_deg (self s0)) theta = false /\
        use_atm_cache (env s0) = true /\
        file (env s0) = Pickled c /\
        dict_get key_eqb (key_of (self s0)) c = Some entry /\
        _get_closest theta (dict_keys entry) = Some (i, closest) /\
        Rabs (closest - theta) < 1 /\
        dict_get Req_bool closest entry = Some (Profile X sp) /\
        s1 = mk_state
               (with_profile X sp
                  (with_angle (_theta_rad closest) closest (self s0)))
               (env s0) c (trace s0 ++ [LoadCache])).
Proof.
  intros H. revert H. run_set_theta.
  destruct (same_angle (theta_deg (self s0)) theta) eqn:Hsame.
  { intros [= <- <-]. left. now apply same_angle_true. }
  destruct (use_atm_cache (env s0)) eqn:Huse; [|intros [= <- <-]; now left].
  destruct (file (env s0)) as [| |c] eqn:Hfile; simpl.
  - intros H. left.
    rewrite <- (calculate_and_store_angle theta (key_of (self s0))
                  (mk_state (self s0) (env s0)
                     [(key_of (self s0), [])] (trace s0 ++ [LoadCache]))).
    now rewrite H.
  - intros [= <- <-]. right. left. simpl. repeat split; reflexivity.
  - destruct (dict_get key_eqb (key_of (self s0)) c) as [entry|] eqn:Hkey.
    + destruct (_get_closest theta (dict_keys entry)) as [[i closest]|] eqn:Hfound;
        simpl.
      * destruct (Rlt_dec (Rabs (closest - theta)) 1) as [Hlt | Hge].
        -- simpl.
           destruct (dict_get Req_bool closest entry) as [[X sp|]|] eqn:Hst; simpl.
           ++ intros [= <- <-]. right. right.
              exists c, entry, i, closest, X, sp. repeat split; auto.
           ++ intros H. left.
              match type of H with
              | calculate_and_store _ _ _ _ ?k ?st = _ =>
                  rewrite <- (calculate_and_store_angle theta k st)
              end.
              now rewrite H.
           ++ intros H. left.
              match type of H with
              | calculate_and_store _ _ _ _ ?k ?st = _ =>
                  rewrite <- (calculate_and_store_angle theta k st)
              end.
              now rewrite H.
        -- match goal with
           | |- context [calculate_and_store _ _ _ _ ?k ?st] =>
               destruct (calculate_and_store _ _theta_rad density_spline theta k st)
                 as [[[]|e] st'] eqn:Hcs
           end.
           ++ intros [= <- <-]. left.
              match type of Hcs with
              | calculate_and_store _ _ _ _ ?k ?st = _ =>
                  rewrite <- (calculate_and_store_angle theta k st)
              end.
              now rewrite Hcs.
           ++ intros H. left.
              match type of H with
              | calculate_and_store _ _ _ _ ?k ?st = _ =>
                  rewrite <- (calculate_and_store_angle theta k st)
              end.
              now rewrite H.
      * intros H. left.
        match type of H with
        | calculate_and_store _ _ _ _ ?k ?st = _ =>
            rewrite <- (calculate_and_store_angle theta k st)
        end.
        now rewrite H.
    + intros H. left.
      match type of H with
      | calculate_and_store _ _ _ _ ?k ?st = _ =>
          rewrite <- (calculate_and_store_angle theta k st)
      end.
      now rewrite H.
Qed.

(** C5: when a call [set_theta theta] has returned, calling it again with
    the same [theta] returns too, builds no spline (it does nothing, or
    only loads the cache), and leaves [thrad], [theta_deg], [X_surf],
    [s_X2rho] and the environment as the first call left them. *)
Theorem set_theta_twice_no_recomputation theta (s0 s1 : state Spline) :
  set_theta _theta_rad density_spline theta s0 = (Ok tt, s1) ->
  exists s2,
    set_theta _theta_rad density_spline theta s1 = (Ok tt, s2) /\
    self s2 = self s1 /\
    env s2 = env s1 /\
    (exists t, trace s2 = trace s1 ++ t /\ no_build t).
Proof.
  intros H1.
  destruct (set_theta_cases _ _ _ _ H1) as [Hdone | [(Hr & _) | Hsnap]].
  - exists s1. unfold set_theta, bind, get_state.
    rewrite Hdone. simpl. rewrite Req_bool_refl.
    repeat split. exists []. split; [now rewrite app_nil_r | intros t []].
  - discriminate.
  - destruct Hsnap as (c & entry & i & closest & X & sp & _ & Hsame & Huse
                       & Hfile & Hkey & Hfound & Hlt & Hst & ->).
    unfold set_theta, bind, get_state. simpl.
    destruct (Req_bool closest theta) eqn:Heq.
    + eexists. split; [reflexivity|]. repeat split.
      exists []. split; [now rewrite app_nil_r | intros t []].
    + rewrite Huse.
      unfold _load_cache, bind, log, modify, get_state, set_cache. simpl.
      rewrite Hfile. simpl.
      change (key_of (with_profile X sp (with_angle (_theta_rad closest) closest (self s0))))
        with (key_of (self s0)).
      rewrite Hkey. unfold try_except, bind. rewrite Hfound. simpl.
      destruct (Rlt_dec (Rabs (closest - theta)) 1) as [_ | Hn]; [|contradiction].
      unfold set_self, modify. simpl. rewrite Hst. simpl.
      eexists. split; [reflexivity|]. simpl. repeat split.
      exists [LoadCache]. split; [reflexivity|].
      intros t [Hin | []]. discriminate.
Qed.
End SetThetaProperties.

(** *** Running the model on concrete states *)

Ltac real_facts := unfold Rabs in *; repeat destruct (Rcase_abs _); lra.

Ltac decide_real_tests :=
  repeat match goal with
    | |- context [Rlt_dec ?a ?b] =>
        destruct (Rlt_dec a b); [try (exfalso; real_facts) | try (exfalso; real_facts)]
    | |- context [Req_dec_T ?a ?b] =>
        destruct (Req_dec_T a b); [try (exfalso; lra) | try (exfalso; lra)]
    end.

Ltac run_example :=
  unfold Example.set_theta, Example.initial, set_theta, calculate_and_store,
    calculate_density_spline, _dump_cache, _load_cache, install_stored,
    from_option, try_except, bind, log, set_self, set_cache, set_env, modify,
    get_state, ret, raise, Req_bool;
  simpl; repeat (progress decide_real_tests; simpl).


(** C6 fails on the path through the [try] block: the store holds the
    angle 0 for the key, 10 degrees are requested, the first attempt to write
    the cache fails and the second succeeds.  The bare [except] swallows the
    [IOError] of the first attempt, the entry of the key is emptied, the
    spline is built a second time, and [set_theta] returns normally. *)
Lemma set_theta_swallows_write_failure :
  let stored0 := Profile 1036 (Example.USStd_key, Example._theta_rad 0) in
  let stored10 := Profile 1036 (Example.USStd_key, Example._theta_rad 10) in
  let s := Example.initial true
             (Pickled [(Example.USStd_key, [(0, stored0)])]) [true; false] in
  exists s',
    Example.set_theta 10 s = (Ok tt, s') /\
    trace s' = [LoadCache; BuildSpline 10; DumpCache false;
                BuildSpline 10; DumpCache true] /\
    file (env s') = Pickled [(Example.USStd_key, [(10, stored10)])].
Proof.
  cbv zeta. eexists. split.
  - run_example. reflexivity.
  - split; reflexivity.
Qed.

(** *** The store keeps stored angles one degree apart *)

Lemma key_eqb_refl k : key_eqb k k = true.
Proof.
  destruct k as [[c l] s]. simpl. rewrite !String.eqb_refl. simpl.
  destruct s; simpl; [apply String.eqb_refl | reflexivity].
Qed.

Lemma dict_get_set_same {K V : Type} (eqb : K -> K -> bool) k (v : V) d :
  eqb k k = true -> dict_get eqb k (dict_set eqb k v d) = Some v.
Proof.
  intros Hrefl. induction d as [|[k' v'] r IH]; simpl.
  - now rewrite Hrefl.
  - destruct (eqb k' k) eqn:E; simpl; [now rewrite Hrefl | now rewrite E].
Qed.

Lemma dict_set_keys {K V : Type} (eqb : K -> K -> bool) k (v : V) d k0 :
  In k0 (dict_keys (dict_set eqb k v d)) -> k0 = k \/ In k0 (dict_keys d).
Proof.
  unfold dict_keys. intros H. apply in_map_iff in H as [[k1 v1] [<- H]].
  apply dict_set_In in H as [[-> _] | H]; [now left|].
  right. apply in_map_iff. now exists (k1, v1).
Qed.

Section StoreInvariant.
Variable Spline : Type.
Variable _theta_rad : R -> R.
Variable density_spline : atmosphere Spline -> R * Spline.

Lemma cache_well_spaced_set (c : cache_dict Spline) key entry :
  cache_well_spaced c -> well_spaced (dict_keys entry) ->
  cache_well_spaced (dict_set key_eqb key entry c).
Proof.
  intros Hc He k e Hin.
  apply dict_set_In in Hin as [[_ ->] | Hin]; [exact He | now apply (Hc k)].
Qed.

Lemma well_spaced_nil : well_spaced [].
Proof. intros a b []. Qed.

(** Adding an angle that is at least one degree away from every other
    stored angle keeps an entry well spaced. *)
Lemma well_spaced_add theta (v : stored Spline) (entry : cache_entry Spline) :
  well_spaced (dict_keys entry) ->
  (forall a, In a (dict_keys entry) -> a <> theta -> 1 <= Rabs (a - theta)) ->
  well_spaced (dict_keys (dict_set Req_bool theta v entry)).
Proof.
  intros Hws Hfar a b Ha Hb Hne.
  apply dict_set_keys in Ha, Hb.
  destruct Ha as [-> | Ha], Hb as [-> | Hb].
  - now elim Hne.
  - rewrite Rabs_minus_sym. apply Hfar; auto.
  - apply Hfar; auto.
  - now apply Hws.
Qed.

Lemma calculate_and_store_well_spaced theta key (s : state Spline) :
  state_well_spaced s -> far_from theta key s ->
  state_well_spaced
    (snd (calculate_and_store _ _theta_rad density_spline theta key s)).
Proof.
  intros [Hfile Hcache] Hfar.
  unfold calculate_and_store, calculate_density_spline, _dump_cache,
    from_option, bind, log, set_self, set_cache, set_env, modify, get_state,
    ret, raise. simpl.
  destruct (dict_get key_eqb key (cache s)) as [entry|] eqn:Hkey; simpl;
    [|now split].
  assert (Hnew : cache_well_spaced
                   (dict_set key_eqb key
                      (dict_set Req_bool theta
                         (Profile
                            (fst (density_spline (with_angle (_theta_rad theta) theta (self s))))
                            (snd (density_spline (with_angle (_theta_rad theta) theta (self s)))))
                         entry) (cache s))).
  { apply cache_well_spaced_set; [exact Hcache|].
    apply well_spaced_add.
    - apply (Hcache key). apply dict_get_In with (eqb := key_eqb); auto using key_eqb_eq.
    - now apply Hfar. }
  destruct (write_faults (env s)) as [|[] rest]; simpl; split; assumption.
Qed.

Lemma calculate_and_store_after_reset theta key (s : state Spline) :
  state_well_spaced s ->
  state_well_spaced
    (snd (calculate_and_store _ _theta_rad density_spline theta key
            (mk_state (self s) (env s) (dict_set key_eqb key [] (cache s))
                      (trace s)))).
Proof.
  intros [Hfile Hcache]. apply calculate_and_store_well_spaced.
  - split; [exact Hfile|]. simpl.
    apply cache_well_spaced_set; [exact Hcache | apply well_spaced_nil].
  - intros entry. simpl. rewrite dict_get_set_same by apply key_eqb_refl.
    intros [= <-] a [].
Qed.

(** [set_theta] never writes a store with two distinct angles of one
    entry less than one degree apart. *)
Lemma set_theta_well_spaced theta (s : state Spline) :
  store_well_spaced (file (env s)) ->
  store_well_spaced
    (file (env (snd (set_theta _theta_rad density_spline theta s)))).
Proof.
  intros Hfile.
  unfold set_theta, calculate_density_spline, _load_cache, install_stored,
    from_option, try_except, bind, log, set_self, set_cache, set_env,
    modify, get_state, ret, raise. simpl.
  destruct (same_angle (theta_deg (self s)) theta); [exact Hfile|].
  destruct (use_atm_cache (env s)); [|exact Hfile].
  destruct (file (env s)) as [| |c] eqn:Hf; simpl.
  - match goal with
    | |- context [calculate_and_store _ _ _ _ _ ?st] =>
        destruct (calculate_and_store_after_reset theta (key_of (self s))
                    (mk_state (self s) (env s) [] (trace s ++ [LoadCache])))
          as [H _]
    end.
    + split; simpl; [now rewrite Hf | intros k e []].
    + simpl in H.
      destruct (calculate_and_store _ _ _ _ _ _) as [[[]|e] st]; exact H.
  - now rewrite Hf.
  - assert (Hs0 : state_well_spaced
                    (mk_state (self s) (env s) c (trace s ++ [LoadCache]))).
    { split; simpl; [now rewrite Hf | exact Hfile]. }
    destruct (dict_get key_eqb (key_of (self s)) c) as [entry|] eqn:Hkey.
    + destruct (_get_closest theta (dict_keys entry)) as [found|] eqn:Hfound; simpl.
      * destruct (Rlt_dec (Rabs (snd found - theta)) 1) as [Hlt | Hge]; simpl.
        -- assert (Hs1 : state_well_spaced
                           (mk_state
                              (with_angle (_theta_rad (snd found)) (snd found) (self s))
                              (env s) c (trace s ++ [LoadCache])))
             by exact Hs0.
           destruct (dict_get Req_bool (snd found) entry) as [[X sp|]|]; simpl.
           ++ now rewrite Hf.
           ++ destruct (calculate_and_store_after_reset theta (key_of (self s)) _ Hs1)
                as [H _]. exact H.
           ++ destruct (calculate_and_store_after_reset theta (key_of (self s)) _ Hs1)
                as [H _]. exact H.
        -- assert (Hfar : far_from theta (key_of (self s))
                            (mk_state (self s) (env s) c (trace s ++ [LoadCache]))).
           { intros e. simpl. rewrite Hkey. intros [= <-] a Ha _.
             destruct (_get_closest_nearest _ _ _ Hfound) as [_ Hmin].
             specialize (Hmin a Ha). lra. }
           pose proof (calculate_and_store_well_spaced theta (key_of (self s)) _ Hs0 Hfar)
             as Hbody.
           destruct (calculate_and_store _ _ _ _ _ _) as [[[]|e] st]; simpl in *.
           ++ apply Hbody.
           ++ destruct (calculate_and_store_after_reset theta (key_of (self s)) _ Hbody)
                as [H _]. destruct st. exact H.
      * destruct (calculate_and_store_after_reset theta (key_of (self s)) _ Hs0)
          as [H _]. exact H.
    + destruct (calculate_and_store_after_reset theta (key_of (self s)) _ Hs0)
        as [H _]. simpl in H.
      destruct (calculate_and_store _ _ _ _ _ _) as [[[]|e] st]; exact H.
Qed.

Lemma run_calls_well_spaced (calls : list (call Spline)) :
  forall f, store_well_spaced f ->
            store_well_spaced (run_calls _theta_rad density_spline f calls).
Proof.
  induction calls as [|c rest IH]; intros f Hf; simpl; [exact Hf|].
  apply IH. unfold run_call.
  apply (set_theta_well_spaced (call_theta_deg _ c)
           (mk_state (call_self _ c)
              (mk_world (call_use_atm_cache _ c) f (call_write_faults _ c)) [] [])).
  exact Hf.
Qed.

(** C9: after any sequence of [set_theta] calls that starts from an empty
    persistent store (made by any objects, with caching on or off, with
    writes that succeed or fail), any two distinct angles stored in the
    entry of a key are at least one degree apart. *)
Theorem stored_angles_one_degree_apart
  (calls : list (call Spline)) (f0 : cache_file Spline)
  (c : cache_dict Spline) (key : cache_key) (entry : cache_entry Spline)
  (a b : R) :
  empty_store f0 ->
  run_calls _theta_rad density_spline f0 calls = Pickled c ->
  dict_get key_eqb key c = Some entry ->
  In a (dict_keys entry) -> In b (dict_keys entry) -> a <> b ->
  1 <= Rabs (a - b).
Proof.
  intros Hempty Hrun Hkey Ha Hb Hne.
  assert (H0 : store_well_spaced f0).
  { destruct Hempty as [-> | ->]; simpl; [exact I | intros k e []]. }
  pose proof (run_calls_well_spaced calls f0 H0) as H.
  rewrite Hrun in H. simpl in H.
  apply (H key entry); auto.
  apply dict_get_In with (eqb := key_eqb); auto using key_eqb_eq.
Qed.
End StoreInvariant.

Lemma example_first_call :
  file (env (snd (run_call Example._theta_rad Example.density_spline Unreadable
                    (mk_call Example.USStd_atmosphere true [] 0))))
  = Pickled [(Example.USStd_key,
              [(0, Profile 1036 (Example.USStd_key, Example._theta_rad 0))])].
Proof. unfold run_call. run_example. reflexivity. Qed.

Lemma example_second_call :
  file (env (snd (run_call Example._theta_rad Example.density_spline
                    (Pickled [(Example.USStd_key,
                               [(0, Profile 1036 (Example.USStd_key, Example._theta_rad 0))])])
                    (mk_call Example.USStd_atmosphere true [] 10))))
  = Pickled [(Example.USStd_key,
              [(0, Profile 1036 (Example.USStd_key, Example._theta_rad 0));
               (10, Profile 1036 (Example.USStd_key, Example._theta_rad 10))])].
Proof. unfold run_call. run_example. reflexivity. Qed.

Lemma stored_angles_one_degree_apart_witness :
  let P0 := Profile 1036 (Example.USStd_key, Example._theta_rad 0) in
  let P10 := Profile 1036 (Example.USStd_key, Example._theta_rad 10) in
  let calls := [mk_call Example.USStd_atmosphere true [] 0;
                mk_call Example.USStd_atmosphere true [] 10] in
  run_calls Example._theta_rad Example.density_spline Unreadable calls
  = Pickled [(Example.USStd_key, [(0, P0); (10, P10)])] /\
  1 <= Rabs (0 - 10).
Proof.
  cbv zeta.
  assert (Hrun : run_calls Example._theta_rad Example.density_spline Unreadable
                   [mk_call Example.USStd_atmosphere true [] 0;
                    mk_call Example.USStd_atmosphere true [] 10]
                 = Pickled [(Example.USStd_key,
                             [(0, Profile 1036 (Example.USStd_key, Example._theta_rad 0));
                              (10, Profile 1036 (Example.USStd_key, Example._theta_rad 10))])]).
  { unfold run_calls. rewrite example_first_call. apply example_second_call. }
  split; [exact Hrun|].
  eapply (stored_angles_one_degree_apart _ Example._theta_rad Example.density_spline
            _ Unreadable _ Example.USStd_key _ 0 10 (or_introl eq_refl) Hrun).
  - reflexivity.
  - simpl. now left.
  - simpl. right. now left.
  - lra.
Defined.

(** *** Failures of loading, looking up and saving *)

Section CacheFailures.
Variable Spline : Type.
Variable _theta_rad : R -> R.
Variable density_spline : atmosphere Spline -> R * Spline.

(** With an entry for the key in the local dictionary,
    [calculate_and_store] builds the spline and can only fail with the
    [IOError] of [_dump_cache]. *)
Lemma calculate_and_store_outcome theta key (s : state Spline) entry :
  dict_get key_eqb key (cache s) = Some entry ->
  exists r s',
    calculate_and_store _ _theta_rad density_spline theta key s = (r, s') /\
    In (BuildSpline theta) (trace s') /\
    (r = Ok tt \/ (r = Raise IOError /\ In (DumpCache false) (trace s'))).
Proof.
  intros Hkey.
  unfold calculate_and_store, calculate_density_spline, _dump_cache,
    from_option, bind, log, set_self, set_cache, set_env, modify, get_state,
    ret, raise. simpl. rewrite Hkey. simpl.
  destruct (write_faults (env s)) as [|[] rest]; simpl;
    do 2 eexists; (split; [reflexivity|]); simpl;
    rewrite ?in_app_iff; simpl; intuition.
Qed.

Lemma calculate_and_store_after_reset_outcome theta key (s : state Spline) :
  exists r s',
    calculate_and_store _ _theta_rad density_spline theta key
      (mk_state (self s) (env s) (dict_set key_eqb key [] (cache s)) (trace s))
    = (r, s') /\
    In (BuildSpline theta) (trace s') /\
    (r = Ok tt \/ (r = Raise IOError /\ In (DumpCache false) (trace s'))).
Proof.
  apply calculate_and_store_outcome with (entry := []). simpl.
  apply dict_get_set_same, key_eqb_refl.
Qed.



End CacheFailures.

Section WriteFailureSurfaces.
Variable Spline : Type.
Variable _theta_rad : R -> R.
Variable density_spline : atmosphere Spline -> R * Spline.

(** The sibling path of the one that swallows the error: when the store
    has no entry for the key, [calculate_and_store] runs outside the [try]
    block and the [IOError] of a failed save reaches the caller. *)
Lemma set_theta_write_failure_surfaces_without_entry theta (s : state Spline)
  (c : cache_dict Spline) (rest : list bool) :
  use_atm_cache (env s) = true ->
  theta_deg (self s) <> Some theta ->
  file (env s) = Pickled c ->
  dict_get key_eqb (key_of (self s)) c = None ->
  write_faults (env s) = true :: rest ->
  fst (set_theta _theta_rad density_spline theta s) = Raise IOError.
Proof.
  intros Huse Hneq Hfile Hkey Hfaults.
  unfold set_theta, calculate_and_store, calculate_density_spline,
    _dump_cache, _load_cache, from_option, bind, log, set_self, set_cache,
    set_env, modify, get_state, ret, raise. cbn -[key_eqb dict_get dict_set].
  rewrite (same_angle_false _ _ Hneq), Huse, Hfile. cbn -[key_eqb dict_get dict_set].
  rewrite Hkey. cbn -[key_eqb dict_get dict_set].
  rewrite dict_get_set_same by apply key_eqb_refl.
  cbn -[key_eqb dict_get dict_set]. rewrite Hfaults. reflexivity.
Qed.
End WriteFailureSurfaces.

Lemma set_theta_snaps_to_stored_angle_witness :
  let sp30 := (Example.USStd_key, Example._theta_rad 30) in
  let s := Example.initial true
             (Pickled [(Example.USStd_key, [(30, Profile 1200 sp30)])]) [] in
  Rabs (30 - 30.5) < 1 /\
  exists s',
    Example.set_theta 30.5 s = (Ok tt, s') /\
    theta_deg (self s') = Some 30 /\
    thrad (self s') = Some (Example._theta_rad 30) /\
    X_surf (self s') = Some 1200 /\
    s_X2rho (self s') = Some sp30 /\
    trace s' = [LoadCache].
Proof.
  cbv zeta.
  assert (Hclose : Rabs (30 - 30.5) < 1) by real_facts.
  split; [exact Hclose|].
  destruct (set_theta_snaps_to_stored_angle _ Example._theta_rad Example.density_spline
              (Example.initial true
                 (Pickled [(Example.USStd_key,
                            [(30, Profile 1200 (Example.USStd_key, Example._theta_rad 30))])])
                 [])
              30.5 30 1200 (Example.USStd_key, Example._theta_rad 30)
              [(Example.USStd_key,
                [(30, Profile 1200 (Example.USStd_key, Example._theta_rad 30))])]
              [(30, Profile 1200 (Example.USStd_key, Example._theta_rad 30))])
    as (s' & Hrun & _ & Hdeg & Hrad & HX & Hsp & _ & Htrace).
  - reflexivity.
  - reflexivity.
  - reflexivity.
  - discriminate.
  - simpl. now left.
  - simpl. intros a [<- | []] Hne. now elim Hne.
  - exact Hclose.
  - simpl. unfold Req_bool. destruct (Req_dec_T 30 30) as [_ | Hne]; [reflexivity|].
    now elim Hne.
  - exists s'. repeat split; assumption.
Defined.

Lemma set_theta_twice_no_recomputation_witness :
  let s0 := Example.initial false Unreadable [] in
  exists s1 s2,
    Example.set_theta 30 s0 = (Ok tt, s1) /\
    Example.set_theta 30 s1 = (Ok tt, s2) /\
    self s2 = self s1 /\ env s2 = env s1 /\
    (exists t, trace s2 = trace s1 ++ t /\ no_build t).
Proof.
  cbv zeta.
  assert (H1 : Example.set_theta 30 (Example.initial false Unreadable [])
               = (Ok tt, snd (Example.set_theta 30 (Example.initial false Unreadable []))))
    by reflexivity.
  destruct (set_theta_twice_no_recomputation _ Example._theta_rad Example.density_spline
              30 _ _ H1) as (s2 & H2 & Hself & Henv & Htrace).
  exists (snd (Example.set_theta 30 (Example.initial false Unreadable []))), s2.
  repeat split; assumption.
Defined.



(** * Further properties of the layered model *)

Lemma supported_heights_increasing p : In p supported_sets -> heights_increasing p.
Proof.
  unfold supported_sets. simpl. intros H.
  repeat (destruct H as [<- | H]); try contradiction;
    unfold heights_increasing, idx; simpl; lra.
Qed.

Lemma five_entries (r : list R) :
  List.length r = 5%nat ->
  r = [idx r 0; idx r 1; idx r 2; idx r 3; idx r 4].
Proof.
  destruct r as [|x0 [|x1 [|x2 [|x3 [|x4 [|x5 r]]]]]]; simpl; intros H;
    try discriminate. reflexivity.
Qed.

(** The loop of [corsika_get_density_jit] and the [if] chain of
    [height2depth] pick the same layer. *)
Lemma select_layer_height_layer p h :
  well_formed p -> heights_increasing p ->
  select_layer Rle_bool h (_hlay p) = height_layer p h.
Proof.
  intros ((_ & _ & _ & _ & Hlen) & _) (H01 & H12 & H23 & H34).
  unfold height_layer. cbv zeta.
  rewrite (five_entries _ Hlen) at 1.
  set (x0 := idx (_hlay p) 0) in *. set (x1 := idx (_hlay p) 1) in *.
  set (x2 := idx (_hlay p) 2) in *. set (x3 := idx (_hlay p) 3) in *.
  set (x4 := idx (_hlay p) 4) in *.
  unfold select_layer, Rle_bool, idx. simpl.
  repeat (destruct (Rle_dec _ _); try lra); reflexivity.
Qed.

(** The loop of [planar_rho_inv_jit] and the [if] chain of [depth2height]
    pick the same layer. *)
Lemma select_layer_depth_layer p x :
  well_formed p ->
  select_layer Rge_bool x (_thickl p) = depth_layer p x.
Proof.
  intros ((_ & _ & _ & Hlen & _) & _ & _ & (H10 & H21 & H32 & H43) & _).
  unfold depth_layer. cbv zeta.
  rewrite (five_entries _ Hlen) at 1.
  set (t0 := idx (_thickl p) 0) in *. set (t1 := idx (_thickl p) 1) in *.
  set (t2 := idx (_thickl p) 2) in *. set (t3 := idx (_thickl p) 3) in *.
  set (t4 := idx (_thickl p) 4) in *.
  unfold select_layer, Rge_bool, idx. simpl.
  repeat (destruct (Rge_dec _ _); try lra); reflexivity.
Qed.

Lemma supported_tables location season p :
  init_parameters location season = Some p ->
  well_formed p /\ heights_increasing p.
Proof.
  intros Hinit. apply init_parameters_supported in Hinit.
  split; [now apply supported_well_formed | now apply supported_heights_increasing].
Qed.

(** X1: for every supported parameter set and every height,
    [corsika_get_density_jit] evaluates the formula of the layer that the
    [if] chain of [height2depth] selects at that height. *)
Theorem get_density_uses_height2depth_layer
  (location : string) (season : option string) (p : atm_param) (h : R) :
  init_parameters location season = Some p ->
  corsika_get_density_jit h p =
    if (height_layer p h =? 4)%nat then idx (_batm p) 4 / idx (_catm p) 4
    else idx (_batm p) (height_layer p h) / idx (_catm p) (height_layer p h)
         * exp (- h / idx (_catm p) (height_layer p h)).
Proof.
  intros Hinit. destruct (supported_tables _ _ _ Hinit) as [Hwf Hinc].
  unfold corsika_get_density_jit. cbv zeta.
  now rewrite select_layer_height_layer.
Qed.

Lemma get_density_uses_height2depth_layer_witness :
  init_parameters "Karlsruhe" None = Some param_Karlsruhe /\
  corsika_get_density_jit 5.0e5 param_Karlsruhe =
    if (height_layer param_Karlsruhe 5.0e5 =? 4)%nat
    then idx (_batm param_Karlsruhe) 4 / idx (_catm param_Karlsruhe) 4
    else idx (_batm param_Karlsruhe) (height_layer param_Karlsruhe 5.0e5)
         / idx (_catm param_Karlsruhe) (height_layer param_Karlsruhe 5.0e5)
         * exp (- (5.0e5) / idx (_catm param_Karlsruhe) (height_layer param_Karlsruhe 5.0e5)).
Proof.
  split; [reflexivity|].
  apply (get_density_uses_height2depth_layer "Karlsruhe" None). reflexivity.
Defined.

(** X2: for every supported parameter set and every vertical depth,
    [planar_rho_inv_jit] evaluates the formula of the layer that the [if]
    chain of [depth2height] selects at that depth. *)
Theorem planar_rho_inv_uses_depth2height_layer
  (location : string) (season : option string) (p : atm_param) (X cos_theta : R) :
  init_parameters location season = Some p ->
  planar_rho_inv_jit X cos_theta p =
    if (depth_layer p (X * cos_theta) =? 4)%nat then idx (_catm p) 4 / idx (_batm p) 4
    else idx (_catm p) (depth_layer p (X * cos_theta))
         / (X * cos_theta - idx (_aatm p) (depth_layer p (X * cos_theta))).
Proof.
  intros Hinit. destruct (supported_tables _ _ _ Hinit) as [Hwf _].
  unfold planar_rho_inv_jit. cbv zeta.
  now rewrite select_layer_depth_layer.
Qed.

Lemma planar_rho_inv_uses_depth2height_layer_witness :
  init_parameters "BK_USStd" None = Some param_BK_USStd /\
  planar_rho_inv_jit 800 0.5 param_BK_USStd =
    if (depth_layer param_BK_USStd (800 * 0.5) =? 4)%nat
    then idx (_catm param_BK_USStd) 4 / idx (_batm param_BK_USStd) 4
    else idx (_catm param_BK_USStd) (depth_layer param_BK_USStd (800 * 0.5))
         / (800 * 0.5 - idx (_aatm param_BK_USStd) (depth_layer param_BK_USStd (800 * 0.5))).
Proof.
  split; [reflexivity|].
  apply (planar_rho_inv_uses_depth2height_layer "BK_USStd" None). reflexivity.
Defined.

Lemma layer_depth_layer_height p l x :
  well_formed p -> (l <= 4)%nat -> ((l < 4)%nat -> idx (_aatm p) l < x) ->
  layer_depth p l (layer_height p l x) = x.
Proof.
  intros Hwf Hl Ha.
  destruct (well_formed_positive p l Hwf Hl) as [Hb Hc].
  destruct (well_formed_positive p 4 Hwf (Nat.le_refl 4)) as [_ Hc4].
  unfold layer_depth, layer_height. destruct (l =? 4)%nat eqn:E.
  - field. lra.
  - apply Nat.eqb_neq in E. assert (Hx : idx (_aatm p) l < x) by (apply Ha; lia).
    set (a := idx (_aatm p) l) in *. set (b := idx (_batm p) l) in *.
    set (c := idx (_catm p) l) in *.
    replace (- (c * ln (b / (x - a))) / c) with (- ln (b / (x - a))) by (field; lra).
    rewrite exp_Ropp, exp_ln by (apply Rdiv_lt_0_compat; lra).
    field. lra.
Qed.

(** X3: the round trip in the other direction.  For every supported
    parameter set and every depth [x] for which [height2depth] selects, at
    the height [depth2height x], the layer that [depth2height] selected at
    [x], [height2depth (depth2height x) = x]. *)
Theorem height2depth_depth2height_same_layer
  (location : string) (season : option string) (p : atm_param) (x : R) :
  init_parameters location season = Some p ->
  height_layer p (depth2height p x) = depth_layer p x ->
  height2depth p (depth2height p x) = x.
Proof.
  intros Hinit Hsame. destruct (supported_tables _ _ _ Hinit) as [Hwf _].
  rewrite height2depth_by_layer, Hsame, depth2height_by_layer.
  apply layer_depth_layer_height; [exact Hwf | apply depth_layer_le_4 |].
  intros Hl. now apply depth_layer_above_a.
Qed.

Lemma height2depth_depth2height_same_layer_witness :
  init_parameters "USStd" None = Some param_USStd /\
  height_layer param_USStd (depth2height param_USStd 0.0005)
    = depth_layer param_USStd 0.0005 /\
  height2depth param_USStd (depth2height param_USStd 0.0005) = 0.0005.
Proof.
  assert (Hinit : init_parameters "USStd" None = Some param_USStd) by reflexivity.
  assert (Hd : depth_layer param_USStd 0.0005 = 4%nat).
  { unfold depth_layer, idx; simpl.
    repeat (destruct (Rge_dec _ _); try lra); reflexivity. }
  assert (Hx : depth2height param_USStd 0.0005 = 10782920).
  { rewrite depth2height_by_layer, Hd. unfold layer_height, idx; simpl. lra. }
  assert (Hh : height_layer param_USStd (depth2height param_USStd 0.0005) = 4%nat).
  { rewrite Hx. unfold height_layer, idx; simpl.
    repeat (destruct (Rle_dec _ _); try lra); reflexivity. }
  split; [exact Hinit|]. split; [now rewrite Hh, Hd|].
  apply (height2depth_depth2height_same_layer "USStd" None param_USStd 0.0005 Hinit).
  now rewrite Hh, Hd.
Defined.

(** X4: for every supported parameter set, [planar_rho_inv_jit] is strictly
    positive for every slant depth and every [cos_theta] (negative vertical
    depths included): its denominator [x_v - a[l]] is positive on the depth
    band of each layer, so it never divides by zero. *)
Theorem planar_rho_inv_jit_positive
  (location : string) (season : option string) (p : atm_param) (X cos_theta : R) :
  init_parameters location season = Some p ->
  0 < planar_rho_inv_jit X cos_theta p.
Proof.
  intros Hinit. destruct (supported_tables _ _ _ Hinit) as [Hwf _].
  rewrite (planar_rho_inv_uses_depth2height_layer _ _ _ _ _ Hinit).
  pose proof (depth_layer_le_4 p (X * cos_theta)) as Hl.
  destruct (well_formed_positive p _ Hwf Hl) as [_ Hc].
  destruct (well_formed_positive p 4 Hwf (Nat.le_refl 4)) as [Hb4 Hc4].
  destruct (depth_layer p (X * cos_theta) =? 4)%nat eqn:E.
  - now apply Rdiv_lt_0_compat.
  - apply Nat.eqb_neq in E.
    assert (Ha : idx (_aatm p) (depth_layer p (X * cos_theta)) < X * cos_theta)
      by (apply depth_layer_above_a; [exact Hwf | lia]).
    apply Rdiv_lt_0_compat; lra.
Qed.

Lemma planar_rho_inv_jit_positive_witness :
  init_parameters "PL_SouthPole" (Some "January"%string)
    = Some param_PL_SouthPole_January /\
  0 < planar_rho_inv_jit 600 (-1) param_PL_SouthPole_January.
Proof.
  split; [reflexivity|].
  apply (planar_rho_inv_jit_positive "PL_SouthPole" (Some "January"%string)).
  reflexivity.
Defined.

Lemma layers_agree_USStd_1km :
  depth_layer param_USStd (height2depth param_USStd 1.0e5)
  = height_layer param_USStd 1.0e5.
Proof.
  assert (Hh : height_layer param_USStd 1.0e5 = 0%nat).
  { unfold height_layer, idx; simpl. destruct (Rle_dec _ _); [reflexivity | lra]. }
  assert (Hx : 631.100309 <= height2depth param_USStd 1.0e5).
  { rewrite height2depth_by_layer, Hh. unfold layer_depth, idx; simpl.
    pose proof (exp_ineq1_le (- (1.0e5) / 994186.38)). lra. }
  rewrite Hh. unfold depth_layer, idx; simpl.
  destruct (Rge_dec _ _); [reflexivity | lra].
Qed.

(** X5: for every supported parameter set, at a height [h] whose depth is
    selected into the same layer by [depth2height], the planar inverse
    density at the vertical depth [X * cos_theta = height2depth h] is the
    reciprocal of [get_density h]. *)
Theorem planar_rho_inv_reciprocal_of_density
  (location : string) (season : option string) (p : atm_param) (h X cos_theta : R) :
  init_parameters location season = Some p ->
  X * cos_theta = height2depth p h ->
  depth_layer p (height2depth p h) = height_layer p h ->
  planar_rho_inv_jit X cos_theta p * get_density p h = 1.
Proof.
  intros Hinit HX Hsame. destruct (supported_tables _ _ _ Hinit) as [Hwf _].
  unfold get_density.
  rewrite (planar_rho_inv_uses_depth2height_layer _ _ _ _ _ Hinit),
    (get_density_uses_height2depth_layer _ _ _ _ Hinit), HX, Hsame.
  rewrite height2depth_by_layer. unfold layer_depth.
  pose proof (height_layer_le_4 p h) as Hl.
  destruct (well_formed_positive p _ Hwf Hl) as [Hb Hc].
  destruct (well_formed_positive p 4 Hwf (Nat.le_refl 4)) as [Hb4 Hc4].
  destruct (height_layer p h =? 4)%nat.
  - field. lra.
  - pose proof (exp_pos (- h / idx (_catm p) (height_layer p h))) as He.
    set (e := exp (- h / idx (_catm p) (height_layer p h))) in *.
    set (a := idx (_aatm p) (height_layer p h)).
    set (b := idx (_batm p) (height_layer p h)) in *.
    set (c := idx (_catm p) (height_layer p h)) in *.
    replace (a + b * e - a) with (b * e) by ring.
    field. repeat split; lra.
Qed.

Lemma planar_rho_inv_reciprocal_of_density_witness :
  init_parameters "USStd" None = Some param_USStd /\
  planar_rho_inv_jit (height2depth param_USStd 1.0e5) 1 param_USStd
  * get_density param_USStd 1.0e5 = 1.
Proof.
  split; [reflexivity|].
  apply (planar_rho_inv_reciprocal_of_density "USStd" None).
  - reflexivity.
  - lra.
  - exact layers_agree_USStd_1km.
Defined.

(** X6: for every supported parameter set, between two heights of the
    same layer the density strictly decreases with height in layers 0 to 3
    and is constant in the top layer. *)
Theorem get_density_decreasing_within_layer
  (location : string) (season : option string) (p : atm_param) (h1 h2 : R) :
  init_parameters location season = Some p ->
  h1 < h2 -> height_layer p h1 = height_layer p h2 ->
  ((height_layer p h1 < 4)%nat -> get_density p h2 < get_density p h1) /\
  (height_layer p h1 = 4%nat -> get_density p h2 = get_density p h1).
Proof.
  intros Hinit Hlt Hsame. destruct (supported_tables _ _ _ Hinit) as [Hwf _].
  unfold get_density.
  rewrite !(get_density_uses_height2depth_layer _ _ _ _ Hinit), <- Hsame.
  pose proof (height_layer_le_4 p h1) as Hl.
  destruct (well_formed_positive p _ Hwf Hl) as [Hb Hc].
  set (l := height_layer p h1) in *. split.
  - intros Hl4. destruct (l =? 4)%nat eqn:E; [apply Nat.eqb_eq in E; lia|].
    assert (He : exp (- h2 / idx (_catm p) l) < exp (- h1 / idx (_catm p) l)).
    { apply exp_increasing. unfold Rdiv.
      apply Rmult_lt_compat_r; [now apply Rinv_0_lt_compat | lra]. }
    apply Rmult_lt_compat_l; [now apply Rdiv_lt_0_compat | exact He].
  - intros ->. reflexivity.
Qed.

Lemma get_density_decreasing_within_layer_witness :
  init_parameters "USStd" None = Some param_USStd /\
  1.0e5 < 2.0e5 /\
  height_layer param_USStd 1.0e5 = height_layer param_USStd 2.0e5 /\
  get_density param_USStd 2.0e5 < get_density param_USStd 1.0e5.
Proof.
  assert (H1 : height_layer param_USStd 1.0e5 = 0%nat).
  { unfold height_layer, idx; simpl.
    repeat (destruct (Rle_dec _ _); try lra); reflexivity. }
  assert (H2 : height_layer param_USStd 2.0e5 = 0%nat).
  { unfold height_layer, idx; simpl.
    repeat (destruct (Rle_dec _ _); try lra); reflexivity. }
  split; [reflexivity|]. split; [lra|]. split; [now rewrite H1, H2|].
  destruct (get_density_decreasing_within_layer "USStd" None param_USStd
              1.0e5 2.0e5 eq_refl) as [Hdec _].
  - lra.
  - now rewrite H1, H2.
  - apply Hdec. rewrite H1. lia.
Defined.

(** *** The density is the slope of the depth *)

Lemma supported_top_b p : In p supported_sets -> idx (_batm p) 4 = 1.
Proof.
  unfold supported_sets. simpl. intros H.
  repeat (destruct H as [<- | H]); try contradiction; unfold idx; simpl; lra.
Qed.

Lemma layer_depth_derivative p l h :
  well_formed p -> (l <= 4)%nat -> idx (_batm p) 4 = 1 ->
  derivable_pt_lim (layer_depth p l) h
    (- (if (l =? 4)%nat then idx (_batm p) 4 / idx (_catm p) 4
        else idx (_batm p) l / idx (_catm p) l * exp (- h / idx (_catm p) l))).
Proof.
  intros Hwf Hl Hb4.
  destruct (well_formed_positive p l Hwf Hl) as [Hb Hc].
  destruct (well_formed_positive p 4 Hwf (Nat.le_refl 4)) as [_ Hc4].
  unfold layer_depth. destruct (l =? 4)%nat.
  - set (a := idx (_aatm p) 4). set (c := idx (_catm p) 4) in *.
    apply derivable_pt_lim_ext
      with (f := (fct_cte a + mult_real_fct (- / c) id)%F).
    { intros z. unfold plus_fct, fct_cte, mult_real_fct, id. field. lra. }
    replace (- (idx (_batm p) 4 / c)) with (0 + - / c * 1)
      by (rewrite Hb4; field; lra).
    apply derivable_pt_lim_plus;
      [apply derivable_pt_lim_const | apply derivable_pt_lim_scal, derivable_pt_lim_id].
  - set (a := idx (_aatm p) l). set (b := idx (_batm p) l) in *.
    set (c := idx (_catm p) l) in *.
    apply derivable_pt_lim_ext
      with (f := (fct_cte a + mult_real_fct b (comp exp (mult_real_fct (- / c) id)))%F).
    { intros z. unfold plus_fct, fct_cte, mult_real_fct, comp, id.
      do 3 f_equal. field. lra. }
    replace (- (b / c * exp (- h / c)))
      with (0 + b * (exp (mult_real_fct (- / c) id h) * (- / c * 1))).
    + apply derivable_pt_lim_plus; [apply derivable_pt_lim_const|].
      apply derivable_pt_lim_scal, derivable_pt_lim_comp;
        [apply derivable_pt_lim_scal, derivable_pt_lim_id | apply derivable_pt_lim_exp].
    + unfold mult_real_fct, id.
      replace (- / c * h) with (- h / c) by (field; lra). field. lra.
Qed.

(** X7: for every supported parameter set and every height that is not a
    layer boundary, [height2depth] is differentiable and its derivative is
    minus [get_density]: the mass density is the rate at which the vertical
    depth falls with height.  (In the top layer this rests on [b[4] = 1] in
    every table.) *)
Theorem height2depth_derivative_is_minus_density
  (location : string) (season : option string) (p : atm_param) (h : R) :
  init_parameters location season = Some p ->
  h <> idx (_hlay p) 1 -> h <> idx (_hlay p) 2 ->
  h <> idx (_hlay p) 3 -> h <> idx (_hlay p) 4 ->
  derivable_pt_lim (height2depth p) h (- get_density p h).
Proof.
  intros Hinit N1 N2 N3 N4.
  destruct (supported_tables _ _ _ Hinit) as [Hwf (_ & H12 & H23 & H34)].
  pose proof (supported_top_b p (init_parameters_supported _ _ _ Hinit)) as Hb4.
  unfold get_density. rewrite (get_density_uses_height2depth_layer _ _ _ _ Hinit).
  assert (Hlocal : exists lo hi, lo < h < hi /\
            forall z, lo < z < hi -> height_layer p z = height_layer p h).
  { unfold height_layer. cbv zeta.
    destruct (Rle_dec h (idx (_hlay p) 1)) as [L1 | L1].
    { exists (h - 1), (idx (_hlay p) 1). split; [lra|]. intros z Hz.
      destruct (Rle_dec z (idx (_hlay p) 1)); [reflexivity | lra]. }
    destruct (Rle_dec h (idx (_hlay p) 2)) as [L2 | L2].
    { exists (idx (_hlay p) 1), (idx (_hlay p) 2). split; [lra|]. intros z Hz.
      repeat (destruct (Rle_dec z _); try lra); reflexivity. }
    destruct (Rle_dec h (idx (_hlay p) 3)) as [L3 | L3].
    { exists (idx (_hlay p) 2), (idx (_hlay p) 3). split; [lra|]. intros z Hz.
      repeat (destruct (Rle_dec z _); try lra); reflexivity. }
    destruct (Rle_dec h (idx (_hlay p) 4)) as [L4 | L4].
    { exists (idx (_hlay p) 3), (idx (_hlay p) 4). split; [lra|]. intros z Hz.
      repeat (destruct (Rle_dec z _); try lra); reflexivity. }
    exists (idx (_hlay p) 4), (h + 1). split; [lra|]. intros z Hz.
    repeat (destruct (Rle_dec z _); try lra); reflexivity. }
  destruct Hlocal as (lo & hi & Hin & Hsame).
  apply derivable_pt_lim_locally_ext
    with (f := layer_depth p (height_layer p h)) (a := lo) (b := hi).
  - exact Hin.
  - intros z Hz. now rewrite height2depth_by_layer, (Hsame z Hz).
  - apply layer_depth_derivative; [exact Hwf | apply height_layer_le_4 | exact Hb4].
Qed.

Lemma height2depth_derivative_is_minus_density_witness :
  init_parameters "SouthPole" (Some "December"%string)
    = Some param_SouthPole_December /\
  derivable_pt_lim (height2depth param_SouthPole_December) 2.0e6
    (- get_density param_SouthPole_December 2.0e6).
Proof.
  split; [reflexivity|].
  apply (height2depth_derivative_is_minus_density "SouthPole" (Some "December"%string));
    [reflexivity | | | |]; unfold idx; simpl; lra.
Defined.

(** *** Refractive index and Cherenkov threshold *)

Lemma nref_rel_air_positive p h : well_formed p -> 0 < nref_rel_air p h.
Proof.
  intros Hwf. unfold nref_rel_air, get_density.
  pose proof (corsika_density_positive p h Hwf).
  pose proof (corsika_density_positive p 0 Hwf).
  apply Rdiv_lt_0_compat; [|assumption]. apply Rmult_lt_0_compat; lra.
Qed.

(** X8: for every supported parameter set the relative refractivity
    [nref_rel_air] is strictly positive at every height, equals 0.000283 at
    height 0, and within one of the layers 0 to 3 strictly decreases with
    height. *)
Theorem nref_rel_air_normalised
  (location : string) (season : option string) (p : atm_param) :
  init_parameters location season = Some p ->
  nref_rel_air p 0 = 0.000283 /\
  (forall h, 0 < nref_rel_air p h) /\
  (forall h1 h2, h1 < h2 -> height_layer p h1 = height_layer p h2 ->
                 (height_layer p h1 < 4)%nat ->
                 nref_rel_air p h2 < nref_rel_air p h1).
Proof.
  intros Hinit. destruct (supported_tables _ _ _ Hinit) as [Hwf _].
  pose proof (corsika_density_positive p 0 Hwf) as H0.
  split; [|split].
  - unfold nref_rel_air, get_density. field. lra.
  - intros h. now apply nref_rel_air_positive.
  - intros h1 h2 Hlt Hsame Hl.
    destruct (get_density_decreasing_within_layer _ _ _ _ _ Hinit Hlt Hsame) as [Hdec _].
    specialize (Hdec Hl). unfold nref_rel_air, get_density in *.
    unfold Rdiv. apply Rmult_lt_compat_r; [now apply Rinv_0_lt_compat | lra].
Qed.

Lemma nref_rel_air_normalised_witness :
  init_parameters "BK_USStd" None = Some param_BK_USStd /\
  nref_rel_air param_BK_USStd 0 = 0.000283 /\
  0 < nref_rel_air param_BK_USStd 1.0e6.
Proof.
  split; [reflexivity|].
  destruct (nref_rel_air_normalised "BK_USStd" None param_BK_USStd eq_refl)
    as (H0 & Hpos & _).
  split; [exact H0 | apply Hpos].
Defined.

Lemma acos_acute x : 0 < x < 1 -> 0 < acos x < PI / 2.
Proof.
  intros Hx. split.
  - apply acos_bound_lt. lra.
  - rewrite acos_atan by lra. apply atan_bound.
Qed.

(** X9: for every supported parameter set and every height the Lorentz
    factor of the Cherenkov threshold is greater than 1 and the Cherenkov
    angle lies strictly between 0 and 90 degrees. *)
Theorem cherenkov_threshold_bounds
  (location : string) (season : option string) (p : atm_param) (h : R) :
  init_parameters location season = Some p ->
  1 < gamma_cherenkov_air p h /\ 0 < theta_cherenkov_air p h < 90.
Proof.
  intros Hinit. destruct (supported_tables _ _ _ Hinit) as [Hwf _].
  pose proof (nref_rel_air_positive p h Hwf) as Hn.
  unfold gamma_cherenkov_air, theta_cherenkov_air. cbv zeta.
  set (n := nref_rel_air p h) in *. split.
  - assert (Hs : 0 < sqrt (2 * n + n ^ 2)) by (apply sqrt_lt_R0; nra).
    assert (Hlt : sqrt (2 * n + n ^ 2) < 1 + n).
    { rewrite <- (sqrt_pow2 (1 + n)) at 1 by lra.
      apply sqrt_lt_1; nra. }
    apply Rmult_lt_reg_r with (sqrt (2 * n + n ^ 2)); [exact Hs|].
    unfold Rdiv. rewrite Rmult_assoc, Rinv_l by lra. lra.
  - assert (Hx : 0 < 1 / (1 + n) < 1).
    { split; [apply Rdiv_lt_0_compat; lra|].
      apply Rmult_lt_reg_r with (1 + n); [lra|]. unfold Rdiv.
      rewrite Rmult_assoc, Rinv_l by lra. lra. }
    destruct (acos_acute _ Hx) as [Hlo Hhi].
    pose proof PI_RGT_0 as HPI.
    set (A := acos (1 / (1 + n))) in *. split.
    + apply Rdiv_lt_0_compat; lra.
    + apply Rmult_lt_reg_r with PI; [exact HPI|]. unfold Rdiv.
      rewrite Rmult_assoc, Rinv_l by lra. lra.
Qed.

Lemma cherenkov_threshold_bounds_witness :
  init_parameters "USStd" None = Some param_USStd /\
  1 < gamma_cherenkov_air param_USStd 0 /\
  0 < theta_cherenkov_air param_USStd 0 < 90.
Proof.
  split; [reflexivity|].
  apply (cherenkov_threshold_bounds "USStd" None). reflexivity.
Defined.

(** X10: for every supported parameter set and every height, the threshold
    Lorentz factor and the Cherenkov angle fit together: with the angle
    converted back to radians, [gamma_cherenkov_air * sin theta = 1]. *)
Theorem gamma_cherenkov_sin_theta
  (location : string) (season : option string) (p : atm_param) (h : R) :
  init_parameters location season = Some p ->
  gamma_cherenkov_air p h * sin (theta_cherenkov_air p h * PI / 180) = 1.
Proof.
  intros Hinit. destruct (supported_tables _ _ _ Hinit) as [Hwf _].
  pose proof (nref_rel_air_positive p h Hwf) as Hn.
  pose proof PI_RGT_0 as HPI.
  unfold gamma_cherenkov_air, theta_cherenkov_air. cbv zeta.
  set (n := nref_rel_air p h) in *.
  replace (acos (1 / (1 + n)) * 180 / PI * PI / 180) with (acos (1 / (1 + n)))
    by (field; lra).
  assert (Hx : -1 <= 1 / (1 + n) <= 1).
  { assert (0 < 1 / (1 + n)) by (apply Rdiv_lt_0_compat; lra).
    split; [lra|]. apply Rmult_le_reg_r with (1 + n); [lra|]. unfold Rdiv.
    rewrite Rmult_assoc, Rinv_l by lra. lra. }
  rewrite (sin_acos _ Hx).
  replace (1 - (1 / (1 + n))²) with ((2 * n + n ^ 2) / (1 + n) ^ 2)
    by (unfold Rsqr; field; lra).
  rewrite sqrt_div by nra.
  rewrite sqrt_pow2 by lra.
  assert (Hs : 0 < sqrt (2 * n + n ^ 2)) by (apply sqrt_lt_R0; nra).
  field. lra.
Qed.

Lemma gamma_cherenkov_sin_theta_witness :
  init_parameters "Karlsruhe" None = Some param_Karlsruhe /\
  gamma_cherenkov_air param_Karlsruhe 3.0e5
  * sin (theta_cherenkov_air param_Karlsruhe 3.0e5 * PI / 180) = 1.
Proof.
  split; [reflexivity|].
  apply (gamma_cherenkov_sin_theta "Karlsruhe" None). reflexivity.
Defined.


(** * Further properties of [set_theta] *)

Lemma dict_get_set_other {V : Type} (key k : cache_key) (v : V)
  (d : list (cache_key * V)) :
  k <> key ->
  dict_get key_eqb k (dict_set key_eqb key v d) = dict_get key_eqb k d.
Proof.
  intros Hne.
  assert (Hkk : key_eqb key k = false).
  { destruct (key_eqb key k) eqn:E; [|reflexivity].
    apply key_eqb_eq in E. now elim Hne. }
  induction d as [|[k1 v1] r IH]; simpl.
  - now rewrite Hkk.
  - destruct (key_eqb k1 key) eqn:E1; simpl.
    + apply key_eqb_eq in E1. subst k1. now rewrite Hkk.
    + destruct (key_eqb k1 k); [reflexivity | exact IH].
Qed.

Section SetThetaPaths.
Variable Spline : Type.
Variable _theta_rad : R -> R.
Variable density_spline : atmosphere Spline -> R * Spline.

(** What [calculate_and_store] does when the local dictionary has an entry
    for the key: build, store under the requested angle, save. *)
Lemma calculate_and_store_result theta key (st : state Spline) entry :
  dict_get key_eqb key (cache st) = Some entry ->
  let a0 := with_angle (_theta_rad theta) theta (self st) in
  let a' := with_profile (fst (density_spline a0)) (snd (density_spline a0)) a0 in
  let c' := dict_set key_eqb key
              (dict_set Req_bool theta
                 (Profile (fst (density_spline a0)) (snd (density_spline a0)))
                 entry) (cache st) in
  let t' := trace st ++ [BuildSpline theta] in
  calculate_and_store _ _theta_rad density_spline theta key st =
    match write_faults (env st) with
    | true :: rest =>
        (Raise IOError,
         mk_state a' (mk_world (use_atm_cache (env st)) (file (env st)) rest)
                  c' (t' ++ [DumpCache false]))
    | false :: rest =>
        (Ok tt,
         mk_state a' (mk_world (use_atm_cache (env st)) (Pickled c') rest)
                  c' (t' ++ [DumpCache true]))
    | [] =>
        (Ok tt,
         mk_state a' (mk_world (use_atm_cache (env st)) (Pickled c') [])
                  c' (t' ++ [DumpCache true]))
    end.
Proof.
  intros Hkey. cbv zeta.
  unfold calculate_and_store, calculate_density_spline, _dump_cache,
    from_option, bind, log, set_self, set_cache, set_env, modify, get_state,
    ret, raise. cbn -[key_eqb dict_get dict_set].
  rewrite Hkey. cbn -[key_eqb dict_get dict_set].
  destruct (write_faults (env st)) as [|[] rest]; reflexivity.
Qed.

(** The paths through [set_theta]: nothing to do; caching disabled; the
    cache file does not unpickle; snapped to a stored angle; or the call ends
    in [calculate_and_store], run on a state whose file is still the one the
    call started with and whose local dictionary agrees with the loaded one
    on all other keys. *)
Lemma set_theta_paths theta (s s' : state Spline) (r : result unit) :
  set_theta _theta_rad density_spline theta s = (r, s') ->
  (same_angle (theta_deg (self s)) theta = true /\ r = Ok tt /\ s' = s)
  \/ (same_angle (theta_deg (self s)) theta = false /\
      use_atm_cache (env s) = false /\ r = Ok tt /\
      let a0 := with_angle (_theta_rad theta) theta (self s) in
      s' = mk_state (with_profile (fst (density_spline a0)) (snd (density_spline a0)) a0)
                    (env s) (cache s) (trace s ++ [BuildSpline theta]))
  \/ (same_angle (theta_deg (self s)) theta = false /\
      use_atm_cache (env s) = true /\ file (env s) = Corrupt /\
      r = Raise OtherError /\
      s' = mk_state (self s) (env s) (cache s) (trace s ++ [LoadCache]))
  \/ (exists c entry i closest X sp,
        r = Ok tt /\
        same_angle (theta_deg (self s)) theta = false /\
        use_atm_cache (env s) = true /\
        file (env s) = Pickled c /\
        dict_get key_eqb (key_of (self s)) c = Some entry /\
        _get_closest theta (dict_keys entry) = Some (i, closest) /\
        Rabs (closest - theta) < 1 /\
        dict_get Req_bool closest entry = Some (Profile X sp) /\
        s' = mk_state
               (with_profile X sp
                  (with_angle (_theta_rad closest) closest (self s)))
               (env s) c (trace s ++ [LoadCache]))
  \/ (exists st entry,
        same_angle (theta_deg (self s)) theta = false /\
        use_atm_cache (env s) = true /\
        calculate_and_store _ _theta_rad density_spline theta (key_of (self s)) st
          = (r, s') /\
        file (env st) = file (env s) /\
        dict_get key_eqb (key_of (self s)) (cache st) = Some entry /\
        agree_off (key_of (self s)) (cache st) (loaded_dict (file (env s))) /\
        exists pre, trace st = trace s ++ LoadCache :: pre).
Proof.
  unfold set_theta, calculate_density_spline, _load_cache, install_stored,
    from_option, try_except, bind, log, set_self, set_cache, set_env,
    modify, get_state, ret, raise. cbn -[key_eqb dict_get dict_set calculate_and_store].
  destruct (same_angle (theta_deg (self s)) theta) eqn:Hsame.
  { intros [= <- <-]. left. auto. }
  destruct (use_atm_cache (env s)) eqn:Huse.
  2:{ intros [= <- <-]. right. left. auto. }
  assert (Hreset : forall (c : cache_dict Spline),
            agree_off (key_of (self s)) c (loaded_dict (file (env s))) ->
            dict_get key_eqb (key_of (self s))
              (dict_set key_eqb (key_of (self s)) [] c) = Some []
            /\ agree_off (key_of (self s)) (dict_set key_eqb (key_of (self s)) [] c)
                 (loaded_dict (file (env s)))).
  { intros c Hc. split; [apply dict_get_set_same, key_eqb_refl|].
    intros k Hk. rewrite dict_get_set_other by exact Hk. now apply Hc. }
  destruct (file (env s)) as [| |c] eqn:Hfile; cbn -[key_eqb dict_get dict_set calculate_and_store].
  - cbn -[key_eqb dict_set calculate_and_store]. intros H. do 4 right.
    destruct (Hreset []) as [Hg Ha]; [intros k _; reflexivity|].
    eexists; exists [].
    repeat split;
      [exact H | simpl; now rewrite Hfile | exact Hg | exact Ha | now exists []].
  - intros [= <- <-]. right. right. left. auto.
  - assert (Hcc : agree_off (key_of (self s)) c (loaded_dict (Pickled c)))
      by (intros k _; reflexivity).
    destruct (Hreset c Hcc) as [Hg Ha].
    destruct (dict_get key_eqb (key_of (self s)) c) as [entry|] eqn:Hkey.
    + destruct (_get_closest theta (dict_keys entry)) as [[i closest]|] eqn:Hfound;
        cbn -[key_eqb dict_get dict_set calculate_and_store].
      * destruct (Rlt_dec (Rabs (closest - theta)) 1) as [Hlt | Hge];
          cbn -[key_eqb dict_get dict_set calculate_and_store].
        -- destruct (dict_get Req_bool closest entry) as [[X sp|]|] eqn:Hst;
             cbn -[key_eqb dict_get dict_set calculate_and_store].
           ++ intros [= <- <-]. do 3 right. left.
              exists c, entry, i, closest, X, sp. repeat split; auto.
           ++ intros H. do 4 right. eexists; exists [].
              repeat split;
                [exact H | simpl; now rewrite Hfile | exact Hg | exact Ha | now exists []].
           ++ intros H. do 4 right. eexists; exists [].
              repeat split;
                [exact H | simpl; now rewrite Hfile | exact Hg | exact Ha | now exists []].
        -- rewrite (calculate_and_store_result theta (key_of (self s))
                      (mk_state (self s) (env s) c (trace s ++ [LoadCache]))
                      entry Hkey).
           cbn -[key_eqb dict_get dict_set calculate_and_store].
           destruct (write_faults (env s)) as [|[] rest] eqn:Hfaults.
           ++ intros H. do 4 right.
              exists (mk_state (self s) (env s) c (trace s ++ [LoadCache])), entry.
              split; [reflexivity|]. split; [reflexivity|].
              split; [|split; [simpl; now rewrite Hfile
                              | split; [exact Hkey | split; [exact Hcc | now exists []]]]].
              rewrite <- H.
              rewrite (calculate_and_store_result theta (key_of (self s))
                         (mk_state (self s) (env s) c (trace s ++ [LoadCache]))
                         entry Hkey).
              cbn -[key_eqb dict_get dict_set calculate_and_store]. now rewrite Hfaults.
           ++ intros H. do 4 right.
              match type of H with
              | calculate_and_store _ _ _ _ _ ?st = _ => exists st, []
              end.
              repeat split; [exact H | simpl; now rewrite Hfile | | |].
              ** apply dict_get_set_same, key_eqb_refl.
              ** intros k Hk. cbn -[key_eqb dict_get dict_set calculate_and_store].
                 rewrite !dict_get_set_other by exact Hk. reflexivity.
              ** exists [BuildSpline theta; DumpCache false]. simpl.
                 now rewrite <- !app_assoc.
           ++ intros H. do 4 right.
              exists (mk_state (self s) (env s) c (trace s ++ [LoadCache])), entry.
              split; [reflexivity|]. split; [reflexivity|].
              split; [|split; [simpl; now rewrite Hfile
                              | split; [exact Hkey | split; [exact Hcc | now exists []]]]].
              rewrite <- H.
              rewrite (calculate_and_store_result theta (key_of (self s))
                         (mk_state (self s) (env s) c (trace s ++ [LoadCache]))
                         entry Hkey).
              cbn -[key_eqb dict_get dict_set calculate_and_store]. now rewrite Hfaults.
      * intros H. do 4 right. eexists; exists [].
        repeat split;
          [exact H | simpl; now rewrite Hfile | exact Hg | exact Ha | now exists []].
    + intros H. do 4 right. eexists; exists [].
      repeat split;
        [exact H | simpl; now rewrite Hfile | exact Hg | exact Ha | now exists []].
Qed.
End SetThetaPaths.

Lemma dict_set_key_present (theta : R) {V : Type} (v : V) (d : list (R * V)) :
  In theta (dict_keys (dict_set Req_bool theta v d)).
Proof.
  induction d as [|[k v'] r IH]; simpl; [now left|].
  destruct (Req_bool k theta); simpl; [now left | now right].
Qed.

Section SetThetaBehaviour.
Variable Spline : Type.
Variable _theta_rad : R -> R.
Variable density_spline : atmosphere Spline -> R * Spline.

Ltac split_result H Hkey :=
  rewrite (calculate_and_store_result _ _theta_rad density_spline _ _ _ _ Hkey) in H;
  cbv zeta in H;
  destruct (write_faults (env _)) as [|[] ?rest] in H;
  try discriminate H; inversion H; subst; clear H.

(** X11: [set_theta] keeps an object configured whatever the outcome:
    whenever an angle is active afterwards, [thrad] is its conversion and
    [X_surf] and [s_X2rho] are set; and after a normal return an angle is
    active. *)
Theorem set_theta_keeps_configured theta (s s' : state Spline) (r : result unit) :
  configured _theta_rad (self s) ->
  set_theta _theta_rad density_spline theta s = (r, s') ->
  configured _theta_rad (self s') /\
  (r = Ok tt ->
   exists t, theta_deg (self s') = Some t /\
             thrad (self s') = Some (_theta_rad t) /\
             X_surf (self s') <> None /\ s_X2rho (self s') <> None).
Proof.
  intros Hconf Hrun.
  destruct (set_theta_paths _ _ _ _ _ _ _ Hrun)
    as [(Hsame & -> & ->) | [(_ & _ & -> & ->) | [(_ & _ & _ & -> & ->) | [Hsnap | Hbuilt]]]].
  - split; [exact Hconf|]. intros _.
    apply same_angle_true in Hsame. unfold configured in Hconf.
    rewrite Hsame in *. exists theta. tauto.
  - unfold configured. simpl. split.
    + repeat split; discriminate.
    + intros _. exists theta. repeat split; discriminate.
  - split; [exact Hconf | discriminate].
  - destruct Hsnap as (c & entry & i & closest & X & sp & -> & _ & _ & _ & _ & _ & _ & _ & ->).
    unfold configured. simpl. split.
    + repeat split; discriminate.
    + intros _. exists closest. repeat split; discriminate.
  - destruct Hbuilt as (st & entry & _ & _ & Hcs & _ & Hkey & _).
    split_result Hcs Hkey; unfold configured; simpl;
      (split; [repeat split; discriminate|]); intros E; try discriminate;
      exists theta; repeat split; discriminate.
Qed.

(** X12: when [set_theta] raises, the cache file is as before the call, and
    either the file does not unpickle and the object is untouched, or a save
    failed ([IOError]) after a spline was built, and then the requested angle
    is active with its profile installed. *)
Theorem set_theta_exception_safety theta (s s' : state Spline) (e : exn) :
  set_theta _theta_rad density_spline theta s = (Raise e, s') ->
  file (env s') = file (env s) /\
  ((e = OtherError /\ file (env s) = Corrupt /\ self s' = self s)
   \/ (e = IOError /\
       In (BuildSpline theta) (trace s') /\ In (DumpCache false) (trace s') /\
       theta_deg (self s') = Some theta /\
       thrad (self s') = Some (_theta_rad theta) /\
       X_surf (self s') <> None /\ s_X2rho (self s') <> None)).
Proof.
  intros Hrun.
  destruct (set_theta_paths _ _ _ _ _ _ _ Hrun)
    as [(_ & E & _) | [(_ & _ & E & _) | [(_ & _ & Hf & E & ->) | [Hsnap | Hbuilt]]]];
    try discriminate.
  - injection E as ->. split; [reflexivity|]. left. auto.
  - destruct Hsnap as (c & entry & i & closest & X & sp & E & _). discriminate.
  - destruct Hbuilt as (st & entry & _ & _ & Hcs & Hfile & Hkey & _).
    split_result Hcs Hkey. simpl. split; [exact Hfile|]. right.
    rewrite !in_app_iff. simpl. repeat split; auto; discriminate.
Qed.

(** X13: a failed save is not retried.  After [set_theta] has raised
    [IOError], the same call made again returns at once and changes nothing:
    the profile stays in the object, the cache file is not written. *)
Theorem set_theta_after_failed_save theta (s s' : state Spline) :
  set_theta _theta_rad density_spline theta s = (Raise IOError, s') ->
  set_theta _theta_rad density_spline theta s' = (Ok tt, s').
Proof.
  intros Hrun.
  destruct (set_theta_exception_safety _ _ _ _ Hrun)
    as (_ & [(E & _) | (_ & _ & _ & Hdeg & _)]); [discriminate|].
  unfold set_theta, bind, get_state. rewrite Hdeg. simpl.
  now rewrite Req_bool_refl.
Qed.


Lemma set_theta_snap_run theta (s : state Spline) c entry i closest X sp :
  same_angle (theta_deg (self s)) theta = false ->
  use_atm_cache (env s) = true ->
  file (env s) = Pickled c ->
  dict_get key_eqb (key_of (self s)) c = Some entry ->
  _get_closest theta (dict_keys entry) = Some (i, closest) ->
  Rabs (closest - theta) < 1 ->
  dict_get Req_bool closest entry = Some (Profile X sp) ->
  set_theta _theta_rad density_spline theta s
  = (Ok tt,
     mk_state (with_profile X sp (with_angle (_theta_rad closest) closest (self s)))
              (env s) c (trace s ++ [LoadCache])).
Proof.
  intros Hsame Huse Hfile Hkey Hfound Hlt Hst.
  unfold set_theta, bind, get_state. rewrite Hsame, Huse.
  unfold _load_cache, bind, log, modify, get_state, set_cache. simpl.
  rewrite Hfile. simpl. rewrite Hkey.
  unfold try_except, bind. rewrite Hfound. simpl.
  destruct (Rlt_dec (Rabs (closest - theta)) 1) as [_ | Hn]; [|contradiction].
  unfold set_self, modify. simpl. now rewrite Hst.
Qed.

(** X15: the store hands a profile on to other objects.  After a
    cache-enabled [set_theta theta] that did not short-circuit has returned,
    any object with the same key and another active angle that calls
    [set_theta theta] on the resulting cache file gets the same [theta_deg],
    [thrad], [X_surf] and [s_X2rho], by loading the cache only: no spline is
    built and nothing is written. *)
Theorem set_theta_shares_profile_through_store theta (s s' : state Spline)
  (a2 : atmosphere Spline) (faults : list bool) (c2 : cache_dict Spline)
  (t2 : list event) :
  use_atm_cache (env s) = true ->
  theta_deg (self s) <> Some theta ->
  set_theta _theta_rad density_spline theta s = (Ok tt, s') ->
  key_of a2 = key_of (self s) ->
  theta_deg a2 <> Some theta ->
  exists s2',
    set_theta _theta_rad density_spline theta
      (mk_state a2 (mk_world true (file (env s')) faults) c2 t2) = (Ok tt, s2') /\
    theta_deg (self s2') = theta_deg (self s') /\
    thrad (self s2') = thrad (self s') /\
    X_surf (self s2') = X_surf (self s') /\
    s_X2rho (self s2') = s_X2rho (self s') /\
    trace s2' = t2 ++ [LoadCache] /\
    file (env s2') = file (env s').
Proof.
  intros Huse Hneq Hrun Hkey2 Hneq2.
  pose proof (same_angle_false _ _ Hneq) as Hsame.
  pose proof (same_angle_false _ _ Hneq2) as Hsame2.
  destruct (set_theta_paths _ _ _ _ _ _ _ Hrun)
    as [(E & _) | [(_ & E & _) | [(_ & _ & _ & E & _) | [Hsnap | Hbuilt]]]];
    try congruence.
  - destruct Hsnap as (c & entry & i & closest & X & sp & _ & _ & _ & Hfile & Hkey
                       & Hfound & Hlt & Hst & ->).
    simpl. rewrite Hfile. eexists. split.
    + apply (set_theta_snap_run theta _ c entry i closest X sp); simpl; auto.
      now rewrite Hkey2.
    + simpl. repeat split.
  - destruct Hbuilt as (st & entry & _ & _ & Hcs & _ & Hkey & _).
    assert (Hlookup : forall (P : stored Spline),
              exists i, _get_closest theta (dict_keys (dict_set Req_bool theta P entry))
                        = Some (i, theta)).
    { intros P.
      destruct (_get_closest_nonempty theta (dict_keys (dict_set Req_bool theta P entry)))
        as [[i a] Hfound].
      { intros E. pose proof (dict_set_key_present theta P entry) as Hin.
        rewrite E in Hin. contradiction. }
      exists i. rewrite Hfound. do 2 f_equal.
      destruct (_get_closest_nearest _ _ _ Hfound) as [_ Hmin]. simpl in Hmin.
      specialize (Hmin theta (dict_set_key_present theta P entry)).
      replace (theta - theta) with 0 in Hmin by ring. rewrite Rabs_R0 in Hmin.
      pose proof (Rabs_pos (a - theta)).
      destruct (Req_dec_T a theta) as [E | NE]; [exact E|].
      assert (0 < Rabs (a - theta)) by (apply Rabs_pos_lt; lra). lra. }
    assert (Hzero : Rabs (theta - theta) < 1).
    { replace (theta - theta) with 0 by ring. rewrite Rabs_R0. lra. }
    split_result Hcs Hkey; simpl;
      match goal with
      | |- context [Pickled (dict_set key_eqb ?k
                               (dict_set Req_bool theta (Profile ?X ?sp) entry) ?c)] =>
          destruct (Hlookup (Profile X sp)) as [i Hfound];
          eexists; split;
          [ apply (set_theta_snap_run theta _
                     (dict_set key_eqb k (dict_set Req_bool theta (Profile X sp) entry) c)
                     (dict_set Req_bool theta (Profile X sp) entry)
                     i theta X sp); simpl; auto;
            [ rewrite Hkey2; apply dict_get_set_same, key_eqb_refl
            | apply dict_get_set_same, Req_bool_refl ]
          | simpl; repeat split ]
      end.
Qed.
End SetThetaBehaviour.

(** * Properties of [CorsikaAtmosphere.init_parameters] as a method *)

Section InitParameters.
Variable Spline : Type.
Variable _theta_rad : R -> R.
Variable density_spline : atmosphere Spline -> R * Spline.

(** X16: a successful [init_parameters] installs the selected table and the
    new key and clears the active angle, so that the next [set_theta] never
    takes the "previous spline" shortcut, whatever angle is requested: with
    caching disabled it builds a spline, with caching enabled it starts by
    loading the cache. *)
Theorem init_parameters_forces_recalculation
  (location' : string) (season' : option string)
  (o o' : corsika_atmosphere Spline) (theta : R) (w : world Spline)
  (c : cache_dict Spline) (t : list event) (r : result unit) (s' : state Spline) :
  CorsikaAtmosphere_init_parameters location' season' o = (Ok tt, o') ->
  set_theta _theta_rad density_spline theta (mk_state (base o') w c t) = (r, s') ->
  _atm_param o' = init_parameters location' season' /\
  key_of (base o') = (class_name (base o), location', season') /\
  (use_atm_cache w = false ->
   r = Ok tt /\ trace s' = t ++ [BuildSpline theta] /\
   theta_deg (self s') = Some theta) /\
  (use_atm_cache w = true -> exists rest, trace s' = t ++ LoadCache :: rest).
Proof.
  unfold CorsikaAtmosphere_init_parameters.
  destruct (init_parameters location' season') as [p|]; [|discriminate].
  intros [= <-] Hrun. simpl in Hrun.
  split; [reflexivity|]. split; [reflexivity|].
  destruct (set_theta_paths _ _ _ _ _ _ _ Hrun)
    as [(E & _) | [(_ & Hoff & -> & ->) | [(_ & Hon & _ & _ & ->) | [Hsnap | Hbuilt]]]];
    simpl in *.
  - discriminate.
  - split; [auto|]. intros Hon. congruence.
  - split; [intros Hoff; congruence|]. intros _. now exists [].
  - destruct Hsnap as (c0 & entry & i & closest & X & sp & _ & _ & Hon & _ & _ & _ & _ & _ & ->).
    simpl. split; [intros Hoff; congruence|]. intros _. now exists [].
  - destruct Hbuilt as (st & entry & _ & Hon & Hcs & _ & Hkey & _ & pre & Hpre).
    simpl in Hpre. split; [intros Hoff; congruence|]. intros _.
    rewrite (calculate_and_store_result _ _theta_rad density_spline _ _ _ _ Hkey) in Hcs.
    cbv zeta in Hcs.
    destruct (write_faults (env st)) as [|[] rest]; inversion Hcs; subst; simpl;
      rewrite Hpre; eexists; rewrite <- !app_assoc; simpl; reflexivity.
Qed.

(** X17: a failing [init_parameters] (unknown location or season) has
    already cleared [X_surf] and changes nothing else: the old table, key and
    active angle stay.  A following [set_theta] with the still active angle
    therefore returns at once and leaves [X_surf] unset. *)
Theorem init_parameters_failure_clears_X_surf
  (location' : string) (season' : option string)
  (o o' : corsika_atmosphere Spline) (e : exn) :
  CorsikaAtmosphere_init_parameters location' season' o = (Raise e, o') ->
  init_parameters location' season' = None /\
  _atm_param o' = _atm_param o /\
  key_of (base o') = key_of (base o) /\
  theta_deg (base o') = theta_deg (base o) /\
  thrad (base o') = thrad (base o) /\
  s_X2rho (base o') = s_X2rho (base o) /\
  X_surf (base o') = None /\
  forall theta w c t,
    theta_deg (base o) = Some theta ->
    set_theta _theta_rad density_spline theta (mk_state (base o') w c t)
    = (Ok tt, mk_state (base o') w c t).
Proof.
  unfold CorsikaAtmosphere_init_parameters.
  destruct (init_parameters location' season') as [p|]; [discriminate|].
  intros [= <- <-]. simpl. repeat split.
  intros theta w c t Hdeg.
  unfold set_theta, bind, get_state. simpl. rewrite Hdeg. simpl.
  now rewrite Req_bool_refl.
Qed.
End InitParameters.

(** *** Concrete runs of the further properties *)

Lemma set_theta_keeps_configured_witness :
  let s1 := snd (Example.set_theta 30 (Example.initial false Unreadable [])) in
  configured Example._theta_rad (self s1) /\
  exists t, theta_deg (self s1) = Some t /\
            thrad (self s1) = Some (Example._theta_rad t) /\
            X_surf (self s1) <> None /\ s_X2rho (self s1) <> None.
Proof.
  cbv zeta.
  destruct (set_theta_keeps_configured _ Example._theta_rad Example.density_spline
              30 (Example.initial false Unreadable [])
              (snd (Example.set_theta 30 (Example.initial false Unreadable [])))
              (Ok tt)) as [Hconf Hok].
  - exact I.
  - reflexivity.
  - split; [exact Hconf | now apply Hok].
Defined.

Lemma set_theta_exception_safety_witness :
  let s := Example.initial true Unreadable [true] in
  let s' := snd (Example.set_theta 30 s) in
  Example.set_theta 30 s = (Raise IOError, s') /\
  file (env s') = Unreadable /\
  theta_deg (self s') = Some 30 /\ X_surf (self s') <> None.
Proof.
  cbv zeta.
  assert (Hrun : Example.set_theta 30 (Example.initial true Unreadable [true])
                 = (Raise IOError,
                    snd (Example.set_theta 30 (Example.initial true Unreadable [true]))))
    by reflexivity.
  split; [exact Hrun|].
  destruct (set_theta_exception_safety _ Example._theta_rad Example.density_spline
              30 _ _ _ Hrun) as (Hfile & [(E & _) | (_ & _ & _ & Hdeg & _ & HX & _)]).
  - discriminate.
  - repeat split; assumption.
Defined.

Lemma set_theta_after_failed_save_witness :
  let s := Example.initial true Unreadable [true] in
  let s' := snd (Example.set_theta 30 s) in
  Example.set_theta 30 s = (Raise IOError, s') /\
  Example.set_theta 30 s' = (Ok tt, s').
Proof.
  cbv zeta.
  assert (Hrun : Example.set_theta 30 (Example.initial true Unreadable [true])
                 = (Raise IOError,
                    snd (Example.set_theta 30 (Example.initial true Unreadable [true]))))
    by reflexivity.
  split; [exact Hrun|].
  exact (set_theta_after_failed_save _ Example._theta_rad Example.density_spline
           30 _ _ Hrun).
Defined.


Lemma set_theta_shares_profile_through_store_witness :
  let s := Example.initial true Unreadable [] in
  let s' := snd (Example.set_theta 30 s) in
  Example.set_theta 30 s = (Ok tt, s') /\
  exists s2',
    Example.set_theta 30
      (mk_state Example.USStd_atmosphere (mk_world true (file (env s')) []) [] [])
    = (Ok tt, s2') /\
    X_surf (self s2') = X_surf (self s') /\
    s_X2rho (self s2') = s_X2rho (self s') /\
    trace s2' = [LoadCache].
Proof.
  cbv zeta.
  assert (Hrun : Example.set_theta 30 (Example.initial true Unreadable [])
                 = (Ok tt, snd (Example.set_theta 30 (Example.initial true Unreadable []))))
    by reflexivity.
  split; [exact Hrun|].
  destruct (set_theta_shares_profile_through_store _ Example._theta_rad
              Example.density_spline 30 (Example.initial true Unreadable [])
              (snd (Example.set_theta 30 (Example.initial true Unreadable [])))
              Example.USStd_atmosphere [] [] [])
    as (s2' & H2 & _ & _ & HX & Hsp & Ht & _).
  - reflexivity.
  - discriminate.
  - exact Hrun.
  - reflexivity.
  - discriminate.
  - exists s2'. repeat split; assumption.
Defined.

Lemma init_parameters_forces_recalculation_witness :
  let o := mk_corsika_atmosphere
             (mk_atmosphere "CorsikaAtmosphere" "USStd" None
                (Some (Example._theta_rad 30)) (Some 30) (Some 1036)
                (Some (Example.USStd_key, Example._theta_rad 30)))
             (Some param_USStd) in
  let o' := snd (CorsikaAtmosphere_init_parameters "Karlsruhe" None o) in
  let w := mk_world false (@Unreadable Example.Spline) [] in
  CorsikaAtmosphere_init_parameters "Karlsruhe" None o = (Ok tt, o') /\
  _atm_param o' = Some param_Karlsruhe /\
  trace (snd (Example.set_theta 30 (mk_state (base o') w [] []))) = [BuildSpline 30].
Proof.
  cbv zeta.
  split; [reflexivity|]. split; [reflexivity|].
  match goal with
  | |- trace (snd (Example.set_theta 30 (mk_state (base ?o') ?w [] []))) = _ =>
      destruct (init_parameters_forces_recalculation _ Example._theta_rad
                  Example.density_spline "Karlsruhe" None _ o' 30 w [] [] _ _
                  eq_refl (surjective_pairing _)) as (_ & _ & Hoff & _)
  end.
  destruct (Hoff eq_refl) as (_ & Ht & _). exact Ht.
Defined.

Lemma init_parameters_failure_clears_X_surf_witness :
  let b := mk_atmosphere "CorsikaAtmosphere" "USStd" None
             (Some (Example._theta_rad 30)) (Some 30) (Some 1036)
             (Some (Example.USStd_key, Example._theta_rad 30)) in
  let o := mk_corsika_atmosphere b (Some param_USStd) in
  let o' := snd (CorsikaAtmosphere_init_parameters "Atlantis" None o) in
  let w := mk_world false (@Unreadable Example.Spline) [] in
  CorsikaAtmosphere_init_parameters "Atlantis" None o = (Raise OtherError, o') /\
  _atm_param o' = Some param_USStd /\
  X_surf (base o') = None /\
  Example.set_theta 30 (mk_state (base o') w [] [])
  = (Ok tt, mk_state (base o') w [] []).
Proof.
  cbv zeta.
  split; [reflexivity|].
  match goal with
  | |- _ /\ _ /\ Example.set_theta 30 (mk_state (base ?o') ?w [] []) = _ =>
      destruct (init_parameters_failure_clears_X_surf _ Example._theta_rad
                  Example.density_spline "Atlantis" None _ o' OtherError eq_refl)
        as (_ & Hp & _ & _ & _ & _ & HX & Hset)
  end.
  split; [exact Hp|]. split; [exact HX|].
  apply Hset. reflexivity.
Defined.
